(** * ESP32-SemaphoreGuard: scope-bound guards over FreeRTOS semaphores

    A shallow embedding of [SemaphoreGuard] and [RecursiveSemaphoreGuard]
    (src/SemaphoreGuard.{h,cpp}, src/RecursiveSemaphoreGuard.{h,cpp},
    src/SemaphoreGuardLogging.h) and the properties of the guard layer.

    The guards are straight-line code around calls into the FreeRTOS kernel
    and the logging subsystem.  A member function is embedded as a finite
    tree of kernel interactions ([Prog]); a kernel is any pair of functions
    answering those interactions ([Kernel]); [run] executes a tree against
    a kernel and records the trace of what was called and answered. *)

From Stdlib Require Import ZArith List String Bool Lia.
From ExtLib Require Import Structures.Monad.
Import ListNotations.
Import MonadNotation.
Local Open Scope Z_scope.
Local Open Scope monad_scope.

(** ** FreeRTOS types and port constants *)

(** [SemaphoreHandle_t] is a pointer; it is modelled by its address. *)
Definition SemaphoreHandle_t := Z.
Definition nullptr : SemaphoreHandle_t := 0.
Definition TickType_t := Z.
Definition BaseType_t := Z.

(** The constants and widths that <freertos/FreeRTOS.h> and the compiler
    fix for a port.  They are not part of the library's sources, so the
    guards are embedded over an arbitrary port. *)
Class FreeRTOSPort : Type := {
  pdTRUE : BaseType_t;
  portMAX_DELAY : TickType_t;
  TickType_bits : Z;      (* width of the unsigned type TickType_t *)
  ulong_bits : Z          (* width of unsigned long *)
}.

(** The ESP32 port: 32-bit ticks, 32-bit unsigned long. *)
Definition esp32_port : FreeRTOSPort :=
  {| pdTRUE := 1; portMAX_DELAY := 4294967295;
     TickType_bits := 32; ulong_bits := 32 |}.

(** Unsigned subtraction in [TickType_t], and the cast to unsigned long. *)
Definition tick_sub `{FreeRTOSPort} (a b : TickType_t) : TickType_t :=
  (a - b) mod 2 ^ TickType_bits.
Definition to_ulong `{FreeRTOSPort} (a : Z) : Z := a mod 2 ^ ulong_bits.

(** ** The logging subsystem *)

Inductive esp_log_level_t :=
| ESP_LOG_NONE | ESP_LOG_ERROR | ESP_LOG_WARN
| ESP_LOG_INFO | ESP_LOG_DEBUG | ESP_LOG_VERBOSE.

(** An argument of a printf-style log call.  [None] is the indeterminate
    value of a data member that nothing has written yet. *)
Inductive LogArg :=
| ArgStr (s : option string)      (* %s  *)
| ArgInt (n : option Z)           (* %d  *)
| ArgULong (n : option Z).        (* %lu *)

Record LogLine := {
  log_level : esp_log_level_t;
  log_tag : string;
  log_format : string;
  log_args : list LogArg
}.

Definition SEMG_LOG_TAG : string := "SemaphoreGuard".
Definition RSEMG_LOG_TAG : string := "RecursiveSemaphoreGuard".

(** ** Kernel interactions *)

(** The kernel entry points the guards call; each answers an integer. *)
Inductive KernelCall :=
| xPortInIsrContext
| xSemaphoreTake (h : SemaphoreHandle_t) (xTicksToWait : TickType_t)
| xSemaphoreTakeRecursive (h : SemaphoreHandle_t) (xTicksToWait : TickType_t)
| xSemaphoreGive (h : SemaphoreHandle_t)
| xSemaphoreGiveRecursive (h : SemaphoreHandle_t)
| xTaskGetTickCount.

(** A member function body: it returns, calls the kernel and continues
    with the answer, or writes a log line and continues.  There is no
    node for an exception or an abort: the sources have no [throw], no
    assertion and no loop. *)
Inductive Prog (A : Type) : Type :=
| Ret (a : A)
| Call (c : KernelCall) (k : Z -> Prog A)
| Emit (l : LogLine) (k : Prog A).
Arguments Ret {A} a.
Arguments Call {A} c k.
Arguments Emit {A} l k.

Fixpoint Prog_bind {A B} (p : Prog A) (f : A -> Prog B) : Prog B :=
  match p with
  | Ret a => f a
  | Call c k => Call c (fun r => Prog_bind (k r) f)
  | Emit l k => Emit l (Prog_bind k f)
  end.

#[global] Instance Monad_Prog : Monad Prog :=
  {| ret := @Ret; bind := @Prog_bind |}.

Definition call (c : KernelCall) : Prog Z := Call c Ret.
Definition emit (l : LogLine) : Prog unit := Emit l (Ret tt).

(** The value of a body that returns without touching the kernel. *)
Definition value_of {A} (p : Prog A) : option A :=
  match p with Ret a => Some a | _ => None end.

(** A kernel over states [K]: how it answers a call and what a log line
    does to it. *)
Record Kernel (K : Type) := {
  answer : KernelCall -> K -> Z * K;
  sink : LogLine -> K -> K
}.
Arguments answer {K} _ _ _.
Arguments sink {K} _ _ _.

Inductive Event :=
| EvCall (c : KernelCall) (r : Z)
| EvLog (l : LogLine).

(** Execution of a body: the value, the final kernel state, the trace. *)
Fixpoint run {K A} (kern : Kernel K) (p : Prog A) (s : K)
  : A * K * list Event :=
  match p with
  | Ret a => (a, s, [])
  | Call c k =>
      let (r, s1) := answer kern c s in
      let '(a, s2, tr) := run kern (k r) s1 in
      (a, s2, EvCall c r :: tr)
  | Emit l k =>
      let '(a, s2, tr) := run kern k (sink kern l s) in
      (a, s2, EvLog l :: tr)
  end.

(** A kernel that answers the calls, in order, from a script (and 0 when
    the script is exhausted), and ignores log lines. *)
Definition scripted : Kernel (list Z) :=
  {| answer := fun _ s => match s with [] => (0, []) | r :: s' => (r, s') end;
     sink := fun _ s => s |}.

(** ** SemaphoreGuardLogging.h *)

Definition SEMG_LOG_E (fmt : string) (args : list LogArg) : Prog unit :=
  emit {| log_level := ESP_LOG_ERROR; log_tag := SEMG_LOG_TAG;
          log_format := fmt; log_args := args |}.
Definition SEMG_LOG_W (fmt : string) (args : list LogArg) : Prog unit :=
  emit {| log_level := ESP_LOG_WARN; log_tag := SEMG_LOG_TAG;
          log_format := fmt; log_args := args |}.
(** Used only under [#ifdef SEMAPHORE_GUARD_DEBUG], where it is a debug
    level line. *)
Definition SEMG_LOG_D (fmt : string) (args : list LogArg) : Prog unit :=
  emit {| log_level := ESP_LOG_DEBUG; log_tag := SEMG_LOG_TAG;
          log_format := fmt; log_args := args |}.

Definition RSEMG_LOG_E (fmt : string) (args : list LogArg) : Prog unit :=
  emit {| log_level := ESP_LOG_ERROR; log_tag := RSEMG_LOG_TAG;
          log_format := fmt; log_args := args |}.
Definition RSEMG_LOG_W (fmt : string) (args : list LogArg) : Prog unit :=
  emit {| log_level := ESP_LOG_WARN; log_tag := RSEMG_LOG_TAG;
          log_format := fmt; log_args := args |}.
Definition RSEMG_LOG_D (fmt : string) (args : list LogArg) : Prog unit :=
  emit {| log_level := ESP_LOG_DEBUG; log_tag := RSEMG_LOG_TAG;
          log_format := fmt; log_args := args |}.

(** ** Construction sites and observer calls *)

(** The argument lists of the four constructor overloads each guard class
    declares; the last two exist under SEMAPHORE_GUARD_DEBUG only. *)
Inductive CtorArgs :=
| Plain (handle : SemaphoreHandle_t)
| Timed (handle : SemaphoreHandle_t) (timeout : TickType_t)
| PlainAt (handle : SemaphoreHandle_t) (file : string) (line : Z)
| TimedAt (handle : SemaphoreHandle_t) (timeout : TickType_t)
    (file : string) (line : Z).

Definition args_handle (a : CtorArgs) : SemaphoreHandle_t :=
  match a with
  | Plain h | Timed h _ | PlainAt h _ _ | TimedAt h _ _ _ => h
  end.

(** The wait bound a construction passes to the kernel. *)
Definition args_timeout `{FreeRTOSPort} (a : CtorArgs) : TickType_t :=
  match a with
  | Plain _ | PlainAt _ _ _ => portMAX_DELAY
  | Timed _ t | TimedAt _ t _ _ => t
  end.

Definition debug_only (a : CtorArgs) : bool :=
  match a with
  | Plain _ | Timed _ _ => false
  | PlainAt _ _ _ | TimedAt _ _ _ _ => true
  end.

(** A call of one of the three const member functions, and its result. *)
Inductive Observer := HasLock | IsValid | GetHandle.
Inductive Observed :=
| ObsBool (b : bool)
| ObsHandle (h : SemaphoreHandle_t).

(** ** SemaphoreGuard.h, SemaphoreGuard.cpp *)

Module SemaphoreGuard.

(** The data members.  [m_file], [m_line] and [m_acquireTime] exist only
    under SEMAPHORE_GUARD_DEBUG; [None] is a member that no constructor
    initialiser or assignment has written. *)
Record t := {
  m_handle : SemaphoreHandle_t;
  m_taken : bool;
  m_file : option string;
  m_line : option Z;
  m_acquireTime : option TickType_t
}.

Definition set_m_taken (b : bool) (this : t) : t :=
  {| m_handle := m_handle this; m_taken := b; m_file := m_file this;
     m_line := m_line this; m_acquireTime := m_acquireTime this |}.
Definition set_m_acquireTime (a : TickType_t) (this : t) : t :=
  {| m_handle := m_handle this; m_taken := m_taken this;
     m_file := m_file this; m_line := m_line this;
     m_acquireTime := Some a |}.

Section WithPort.
Context {port : FreeRTOSPort}.

(** [SemaphoreGuard(SemaphoreHandle_t handle)] *)
Definition ctor (handle : SemaphoreHandle_t) : Prog t :=
  let this := {| m_handle := handle; m_taken := false; m_file := None;
                 m_line := None; m_acquireTime := None |} in
  if m_handle this =? nullptr then
    SEMG_LOG_E "Null semaphore handle provided" [] ;;
    ret this
  else
    isr <- call xPortInIsrContext ;;
    if negb (isr =? 0) then
      SEMG_LOG_E "Cannot use SemaphoreGuard in ISR context" [] ;;
      ret this
    else
      r <- call (xSemaphoreTake (m_handle this) portMAX_DELAY) ;;
      ret (set_m_taken (r =? pdTRUE) this).

(** [SemaphoreGuard(SemaphoreHandle_t handle, TickType_t timeout)] *)
Definition ctor_timeout (handle : SemaphoreHandle_t) (timeout : TickType_t)
  : Prog t :=
  let this := {| m_handle := handle; m_taken := false; m_file := None;
                 m_line := None; m_acquireTime := None |} in
  if m_handle this =? nullptr then
    SEMG_LOG_E "Null semaphore handle provided" [] ;;
    ret this
  else
    isr <- call xPortInIsrContext ;;
    if negb (isr =? 0) then
      SEMG_LOG_E "Cannot use SemaphoreGuard in ISR context" [] ;;
      ret this
    else
      r <- call (xSemaphoreTake (m_handle this) timeout) ;;
      ret (set_m_taken (r =? pdTRUE) this).

(** [SemaphoreGuard(SemaphoreHandle_t handle, const char* file, int line)],
    declared under SEMAPHORE_GUARD_DEBUG only. *)
Definition ctor_debug (handle : SemaphoreHandle_t) (file : string)
    (line : Z) : Prog t :=
  let this := {| m_handle := handle; m_taken := false; m_file := Some file;
                 m_line := Some line; m_acquireTime := None |} in
  if m_handle this =? nullptr then
    SEMG_LOG_E "Null semaphore handle provided at %s:%d"
      [ArgStr (m_file this); ArgInt (m_line this)] ;;
    ret this
  else
    isr <- call xPortInIsrContext ;;
    if negb (isr =? 0) then
      SEMG_LOG_E "Cannot use SemaphoreGuard in ISR context at %s:%d"
        [ArgStr (m_file this); ArgInt (m_line this)] ;;
      ret this
    else
      SEMG_LOG_D "Attempting to acquire semaphore at %s:%d"
        [ArgStr (m_file this); ArgInt (m_line this)] ;;
      now <- call xTaskGetTickCount ;;
      let this := set_m_acquireTime now this in
      r <- call (xSemaphoreTake (m_handle this) portMAX_DELAY) ;;
      let this := set_m_taken (r =? pdTRUE) this in
      if m_taken this then
        SEMG_LOG_D "Acquired semaphore at %s:%d"
          [ArgStr (m_file this); ArgInt (m_line this)] ;;
        ret this
      else ret this.

(** [SemaphoreGuard(SemaphoreHandle_t handle, TickType_t timeout,
    const char* file, int line)], under SEMAPHORE_GUARD_DEBUG only. *)
Definition ctor_timeout_debug (handle : SemaphoreHandle_t)
    (timeout : TickType_t) (file : string) (line : Z) : Prog t :=
  let this := {| m_handle := handle; m_taken := false; m_file := Some file;
                 m_line := Some line; m_acquireTime := None |} in
  if m_handle this =? nullptr then
    SEMG_LOG_E "Null semaphore handle provided at %s:%d"
      [ArgStr (m_file this); ArgInt (m_line this)] ;;
    ret this
  else
    isr <- call xPortInIsrContext ;;
    if negb (isr =? 0) then
      SEMG_LOG_E "Cannot use SemaphoreGuard in ISR context at %s:%d"
        [ArgStr (m_file this); ArgInt (m_line this)] ;;
      ret this
    else
      SEMG_LOG_D "Attempting to acquire semaphore with timeout %lu at %s:%d"
        [ArgULong (Some (to_ulong timeout)); ArgStr (m_file this);
         ArgInt (m_line this)] ;;
      now <- call xTaskGetTickCount ;;
      let this := set_m_acquireTime now this in
      r <- call (xSemaphoreTake (m_handle this) timeout) ;;
      let this := set_m_taken (r =? pdTRUE) this in
      if m_taken this then
        SEMG_LOG_D "Acquired semaphore at %s:%d"
          [ArgStr (m_file this); ArgInt (m_line this)] ;;
        ret this
      else
        SEMG_LOG_W "Failed to acquire semaphore within timeout at %s:%d"
          [ArgStr (m_file this); ArgInt (m_line this)] ;;
        ret this.

(** [~SemaphoreGuard()]; [debug] is whether SEMAPHORE_GUARD_DEBUG is
    defined in the build. *)
Definition dtor (debug : bool) (this : t) : Prog unit :=
  if m_taken this && negb (m_handle this =? nullptr) then
    (if debug then
       now <- call xTaskGetTickCount ;;
       let holdTime :=
         option_map (fun a => tick_sub now a) (m_acquireTime this) in
       SEMG_LOG_D "Releasing semaphore at %s:%d (held for %lu ticks)"
         [ArgStr (m_file this); ArgInt (m_line this);
          ArgULong (option_map to_ulong holdTime)]
     else ret tt) ;;
    _ <- call (xSemaphoreGive (m_handle this)) ;;
    ret tt
  else ret tt.

(** The const member functions, as bodies that also hand back [this]. *)
Definition hasLock (this : t) : Prog (bool * t) :=
  ret (m_taken this, this).
Definition getHandle (this : t) : Prog (SemaphoreHandle_t * t) :=
  ret (m_handle this, this).
Definition isValid (this : t) : Prog (bool * t) :=
  ret (negb (m_handle this =? nullptr), this).

(** Overload resolution at a construction site. *)
Definition construct (a : CtorArgs) : Prog t :=
  match a with
  | Plain h => ctor h
  | Timed h timeout => ctor_timeout h timeout
  | PlainAt h file line => ctor_debug h file line
  | TimedAt h timeout file line => ctor_timeout_debug h timeout file line
  end.

(** One observer call, and a sequence of them on the same object. *)
Definition observe (o : Observer) (this : t) : Prog (Observed * t) :=
  match o with
  | HasLock => x <- hasLock this ;; ret (ObsBool (fst x), snd x)
  | IsValid => x <- isValid this ;; ret (ObsBool (fst x), snd x)
  | GetHandle => x <- getHandle this ;; ret (ObsHandle (fst x), snd x)
  end.

Fixpoint observe_all (os : list Observer) (this : t)
  : Prog (list Observed * t) :=
  match os with
  | [] => ret ([], this)
  | o :: os' =>
      x <- observe o this ;;
      y <- observe_all os' (snd x) ;;
      ret (fst x :: fst y, snd y)
  end.

End WithPort.
End SemaphoreGuard.

(** ** RecursiveSemaphoreGuard.h, RecursiveSemaphoreGuard.cpp *)

Module RecursiveSemaphoreGuard.

(** The data members.  [m_file], [m_line] and [m_acquireTime] exist only
    under SEMAPHORE_GUARD_DEBUG; [None] is a member that no constructor
    initialiser or assignment has written. *)
Record t := {
  m_handle : SemaphoreHandle_t;
  m_taken : bool;
  m_file : option string;
  m_line : option Z;
  m_acquireTime : option TickType_t
}.

Definition set_m_taken (b : bool) (this : t) : t :=
  {| m_handle := m_handle this; m_taken := b; m_file := m_file this;
     m_line := m_line this; m_acquireTime := m_acquireTime this |}.
Definition set_m_acquireTime (a : TickType_t) (this : t) : t :=
  {| m_handle := m_handle this; m_taken := m_taken this;
     m_file := m_file this; m_line := m_line this;
     m_acquireTime := Some a |}.

Section WithPort.
Context {port : FreeRTOSPort}.

(** [RecursiveSemaphoreGuard(SemaphoreHandle_t handle)] *)
Definition ctor (handle : SemaphoreHandle_t) : Prog t :=
  let this := {| m_handle := handle; m_taken := false; m_file := None;
                 m_line := None; m_acquireTime := None |} in
  if m_handle this =? nullptr then
    RSEMG_LOG_E "Null recursive mutex handle provided" [] ;;
    ret this
  else
    isr <- call xPortInIsrContext ;;
    if negb (isr =? 0) then
      RSEMG_LOG_E "Cannot use RecursiveSemaphoreGuard in ISR context" [] ;;
      ret this
    else
      r <- call (xSemaphoreTakeRecursive (m_handle this) portMAX_DELAY) ;;
      ret (set_m_taken (r =? pdTRUE) this).

(** [RecursiveSemaphoreGuard(SemaphoreHandle_t handle, TickType_t timeout)] *)
Definition ctor_timeout (handle : SemaphoreHandle_t) (timeout : TickType_t)
  : Prog t :=
  let this := {| m_handle := handle; m_taken := false; m_file := None;
                 m_line := None; m_acquireTime := None |} in
  if m_handle this =? nullptr then
    RSEMG_LOG_E "Null recursive mutex handle provided" [] ;;
    ret this
  else
    isr <- call xPortInIsrContext ;;
    if negb (isr =? 0) then
      RSEMG_LOG_E "Cannot use RecursiveSemaphoreGuard in ISR context" [] ;;
      ret this
    else
      r <- call (xSemaphoreTakeRecursive (m_handle this) timeout) ;;
      ret (set_m_taken (r =? pdTRUE) this).

(** [RecursiveSemaphoreGuard(SemaphoreHandle_t handle, const char* file, int line)],
    declared under SEMAPHORE_GUARD_DEBUG only. *)
Definition ctor_debug (handle : SemaphoreHandle_t) (file : string)
    (line : Z) : Prog t :=
  let this := {| m_handle := handle; m_taken := false; m_file := Some file;
                 m_line := Some line; m_acquireTime := None |} in
  if m_handle this =? nullptr then
    RSEMG_LOG_E "Null recursive mutex handle provided at %s:%d"
      [ArgStr (m_file this); ArgInt (m_line this)] ;;
    ret this
  else
    isr <- call xPortInIsrContext ;;
    if negb (isr =? 0) then
      RSEMG_LOG_E "Cannot use RecursiveSemaphoreGuard in ISR context at %s:%d"
        [ArgStr (m_file this); ArgInt (m_line this)] ;;
      ret this
    else
      RSEMG_LOG_D "Attempting to acquire recursive mutex at %s:%d"
        [ArgStr (m_file this); ArgInt (m_line this)] ;;
      now <- call xTaskGetTickCount ;;
      let this := set_m_acquireTime now this in
      r <- call (xSemaphoreTakeRecursive (m_handle this) portMAX_DELAY) ;;
      let this := set_m_taken (r =? pdTRUE) this in
      if m_taken this then
        RSEMG_LOG_D "Acquired recursive mutex at %s:%d"
          [ArgStr (m_file this); ArgInt (m_line this)] ;;
        ret this
      else ret this.

(** [RecursiveSemaphoreGuard(SemaphoreHandle_t handle, TickType_t timeout,
    const char* file, int line)], under SEMAPHORE_GUARD_DEBUG only. *)
Definition ctor_timeout_debug (handle : SemaphoreHandle_t)
    (timeout : TickType_t) (file : string) (line : Z) : Prog t :=
  let this := {| m_handle := handle; m_taken := false; m_file := Some file;
                 m_line := Some line; m_acquireTime := None |} in
  if m_handle this =? nullptr then
    RSEMG_LOG_E "Null recursive mutex handle provided at %s:%d"
      [ArgStr (m_file this); ArgInt (m_line this)] ;;
    ret this
  else
    isr <- call xPortInIsrContext ;;
    if negb (isr =? 0) then
      RSEMG_LOG_E "Cannot use RecursiveSemaphoreGuard in ISR context at %s:%d"
        [ArgStr (m_file this); ArgInt (m_line this)] ;;
      ret this
    else
      RSEMG_LOG_D "Attempting to acquire recursive mutex with timeout %lu at %s:%d"
        [ArgULong (Some (to_ulong timeout)); ArgStr (m_file this);
         ArgInt (m_line this)] ;;
      now <- call xTaskGetTickCount ;;
      let this := set_m_acquireTime now this in
      r <- call (xSemaphoreTakeRecursive (m_handle this) timeout) ;;
      let this := set_m_taken (r =? pdTRUE) this in
      if m_taken this then
        RSEMG_LOG_D "Acquired recursive mutex at %s:%d"
          [ArgStr (m_file this); ArgInt (m_line this)] ;;
        ret this
      else
        RSEMG_LOG_W "Failed to acquire recursive mutex within timeout at %s:%d"
          [ArgStr (m_file this); ArgInt (m_line this)] ;;
        ret this.

(** [~RecursiveSemaphoreGuard()]; [debug] is whether SEMAPHORE_GUARD_DEBUG is
    defined in the build. *)
Definition dtor (debug : bool) (this : t) : Prog unit :=
  if m_taken this && negb (m_handle this =? nullptr) then
    (if debug then
       now <- call xTaskGetTickCount ;;
       let holdTime :=
         option_map (fun a => tick_sub now a) (m_acquireTime this) in
       RSEMG_LOG_D "Releasing recursive mutex at %s:%d (held for %lu ticks)"
         [ArgStr (m_file this); ArgInt (m_line this);
          ArgULong (option_map to_ulong holdTime)]
     else ret tt) ;;
    _ <- call (xSemaphoreGiveRecursive (m_handle this)) ;;
    ret tt
  else ret tt.

(** The const member functions, as bodies that also hand back [this]. *)
Definition hasLock (this : t) : Prog (bool * t) :=
  ret (m_taken this, this).
Definition getHandle (this : t) : Prog (SemaphoreHandle_t * t) :=
  ret (m_handle this, this).
Definition isValid (this : t) : Prog (bool * t) :=
  ret (negb (m_handle this =? nullptr), this).

(** Overload resolution at a construction site. *)
Definition construct (a : CtorArgs) : Prog t :=
  match a with
  | Plain h => ctor h
  | Timed h timeout => ctor_timeout h timeout
  | PlainAt h file line => ctor_debug h file line
  | TimedAt h timeout file line => ctor_timeout_debug h timeout file line
  end.

(** One observer call, and a sequence of them on the same object. *)
Definition observe (o : Observer) (this : t) : Prog (Observed * t) :=
  match o with
  | HasLock => x <- hasLock this ;; ret (ObsBool (fst x), snd x)
  | IsValid => x <- isValid this ;; ret (ObsBool (fst x), snd x)
  | GetHandle => x <- getHandle this ;; ret (ObsHandle (fst x), snd x)
  end.

Fixpoint observe_all (os : list Observer) (this : t)
  : Prog (list Observed * t) :=
  match os with
  | [] => ret ([], this)
  | o :: os' =>
      x <- observe o this ;;
      y <- observe_all os' (snd x) ;;
      ret (fst x :: fst y, snd y)
  end.

End WithPort.
End RecursiveSemaphoreGuard.

(** ** Reading a trace *)

Definition is_take (c : KernelCall) : bool :=
  match c with
  | xSemaphoreTake _ _ | xSemaphoreTakeRecursive _ _ => true
  | _ => false
  end.

Definition is_give (c : KernelCall) : bool :=
  match c with
  | xSemaphoreGive _ | xSemaphoreGiveRecursive _ => true
  | _ => false
  end.

Fixpoint calls (tr : list Event) : list KernelCall :=
  match tr with
  | [] => []
  | EvCall c _ :: tr' => c :: calls tr'
  | EvLog _ :: tr' => calls tr'
  end.

Fixpoint lines (tr : list Event) : list LogLine :=
  match tr with
  | [] => []
  | EvCall _ _ :: tr' => lines tr'
  | EvLog l :: tr' => l :: lines tr'
  end.

(** The acquisition attempts and the releases a trace issued. *)
Definition takes (tr : list Event) : list KernelCall := filter is_take (calls tr).
Definition releases (tr : list Event) : list KernelCall := filter is_give (calls tr).

(** The trace holds a call of [xSemaphoreTake] on [h] answered [pdTRUE]. *)
Definition take_succeeded `{FreeRTOSPort} (h : SemaphoreHandle_t)
    (tr : list Event) : bool :=
  existsb (fun ev => match ev with
                     | EvCall (xSemaphoreTake h' _) r => (h' =? h) && (r =? pdTRUE)
                     | _ => false
                     end) tr.

(** The same for [xSemaphoreTakeRecursive]. *)
Definition take_recursive_succeeded `{FreeRTOSPort} (h : SemaphoreHandle_t)
    (tr : list Event) : bool :=
  existsb (fun ev => match ev with
                     | EvCall (xSemaphoreTakeRecursive h' _) r =>
                         (h' =? h) && (r =? pdTRUE)
                     | _ => false
                     end) tr.

(** Whether the kernel, in state [s], reports interrupt context. *)
Definition in_isr {K} (kern : Kernel K) (s : K) : bool :=
  negb (fst (answer kern xPortInIsrContext s) =? 0).

(** ** The recursive guard as a mirror image of the binary guard *)

(** [c'] is the call the recursive guard makes where the binary guard
    makes [c]. *)
Inductive mirror_call : KernelCall -> KernelCall -> Prop :=
| mirror_isr : mirror_call xPortInIsrContext xPortInIsrContext
| mirror_tick : mirror_call xTaskGetTickCount xTaskGetTickCount
| mirror_take h t :
    mirror_call (xSemaphoreTake h t) (xSemaphoreTakeRecursive h t)
| mirror_give h :
    mirror_call (xSemaphoreGive h) (xSemaphoreGiveRecursive h).

(** Log lines of the two classes correspond when they have the same
    severity and arguments; tag and wording name the class. *)
Definition mirror_line (l l' : LogLine) : Prop :=
  log_level l = log_level l' /\ log_args l = log_args l' /\
  log_tag l = SEMG_LOG_TAG /\ log_tag l' = RSEMG_LOG_TAG.

Inductive mirror_event : Event -> Event -> Prop :=
| mirror_EvCall c c' r : mirror_call c c' -> mirror_event (EvCall c r) (EvCall c' r)
| mirror_EvLog l l' : mirror_line l l' -> mirror_event (EvLog l) (EvLog l').

(** Two bodies make corresponding interactions in the same order and,
    for every answer of the kernel, continue in corresponding ways down
    to results related by [R]. *)
Inductive Mirror {A B} (R : A -> B -> Prop) : Prog A -> Prog B -> Prop :=
| Mirror_Ret a b : R a b -> Mirror R (Ret a) (Ret b)
| Mirror_Call c c' k k' :
    mirror_call c c' -> (forall r, Mirror R (k r) (k' r)) ->
    Mirror R (Call c k) (Call c' k')
| Mirror_Emit l l' k k' :
    mirror_line l l' -> Mirror R k k' -> Mirror R (Emit l k) (Emit l' k').

(** The recursive guard with the same member values. *)
Definition to_recursive (g : SemaphoreGuard.t) : RecursiveSemaphoreGuard.t :=
  {| RecursiveSemaphoreGuard.m_handle := SemaphoreGuard.m_handle g;
     RecursiveSemaphoreGuard.m_taken := SemaphoreGuard.m_taken g;
     RecursiveSemaphoreGuard.m_file := SemaphoreGuard.m_file g;
     RecursiveSemaphoreGuard.m_line := SemaphoreGuard.m_line g;
     RecursiveSemaphoreGuard.m_acquireTime := SemaphoreGuard.m_acquireTime g |}.

Definition same_members (g : SemaphoreGuard.t) (g' : RecursiveSemaphoreGuard.t)
  : Prop := g' = to_recursive g.

Definition same_result {A} (x : A * SemaphoreGuard.t)
    (y : A * RecursiveSemaphoreGuard.t) : Prop :=
  fst y = fst x /\ same_members (snd x) (snd y).

(** The guard [SemaphoreGuard guard(h, 10)] leaves with [h = 1000] from
    task context and the take answered [pdTRUE]. *)
Definition holding_1000 : SemaphoreGuard.t :=
  {| SemaphoreGuard.m_handle := 1000; SemaphoreGuard.m_taken := true;
     SemaphoreGuard.m_file := None; SemaphoreGuard.m_line := None;
     SemaphoreGuard.m_acquireTime := None |}.

(** ** The declaration macros of SemaphoreGuard.h and RecursiveSemaphoreGuard.h *)

(** [SEMAPHORE_GUARD(handle)] and [SEMAPHORE_GUARD_TIMEOUT(handle, timeout)]
    declare a guard named [guard]; [file] and [line] are [__FILE__] and
    [__LINE__] at the place of expansion, [debug] is whether
    SEMAPHORE_GUARD_DEBUG is defined. *)
Definition SEMAPHORE_GUARD `{FreeRTOSPort} (debug : bool) (file : string)
    (line : Z) (handle : SemaphoreHandle_t) : Prog SemaphoreGuard.t :=
  if debug then SemaphoreGuard.ctor_debug handle file line
  else SemaphoreGuard.ctor handle.

Definition SEMAPHORE_GUARD_TIMEOUT `{FreeRTOSPort} (debug : bool)
    (file : string) (line : Z) (handle : SemaphoreHandle_t)
    (timeout : TickType_t) : Prog SemaphoreGuard.t :=
  if debug then SemaphoreGuard.ctor_timeout_debug handle timeout file line
  else SemaphoreGuard.ctor_timeout handle timeout.

Definition RECURSIVE_SEMAPHORE_GUARD `{FreeRTOSPort} (debug : bool)
    (file : string) (line : Z) (handle : SemaphoreHandle_t)
  : Prog RecursiveSemaphoreGuard.t :=
  if debug then RecursiveSemaphoreGuard.ctor_debug handle file line
  else RecursiveSemaphoreGuard.ctor handle.

Definition RECURSIVE_SEMAPHORE_GUARD_TIMEOUT `{FreeRTOSPort} (debug : bool)
    (file : string) (line : Z) (handle : SemaphoreHandle_t)
    (timeout : TickType_t) : Prog RecursiveSemaphoreGuard.t :=
  if debug
  then RecursiveSemaphoreGuard.ctor_timeout_debug handle timeout file line
  else RecursiveSemaphoreGuard.ctor_timeout handle timeout.

(** ** Block scope *)

(** [{ SemaphoreGuard guard(...); body }]: the guard is constructed, the
    body runs with it, and the destructor runs when the block is left. *)
Definition SemaphoreGuard_scope `{FreeRTOSPort} {A} (debug : bool)
    (a : CtorArgs) (body : SemaphoreGuard.t -> Prog A) : Prog A :=
  guard <- SemaphoreGuard.construct a ;;
  x <- body guard ;;
  SemaphoreGuard.dtor debug guard ;;
  ret x.

Definition RecursiveSemaphoreGuard_scope `{FreeRTOSPort} {A} (debug : bool)
    (a : CtorArgs) (body : RecursiveSemaphoreGuard.t -> Prog A) : Prog A :=
  guard <- RecursiveSemaphoreGuard.construct a ;;
  x <- body guard ;;
  RecursiveSemaphoreGuard.dtor debug guard ;;
  ret x.

(** ** More readings of a trace *)

Definition is_tick (c : KernelCall) : bool :=
  match c with xTaskGetTickCount => true | _ => false end.

Definition level_eqb (a b : esp_log_level_t) : bool :=
  match a, b with
  | ESP_LOG_NONE, ESP_LOG_NONE | ESP_LOG_ERROR, ESP_LOG_ERROR
  | ESP_LOG_WARN, ESP_LOG_WARN | ESP_LOG_INFO, ESP_LOG_INFO
  | ESP_LOG_DEBUG, ESP_LOG_DEBUG | ESP_LOG_VERBOSE, ESP_LOG_VERBOSE => true
  | _, _ => false
  end.

(** The number of lines of a severity in a trace. *)
Definition count_level (lvl : esp_log_level_t) (tr : list Event) : nat :=
  List.length (filter (fun l => level_eqb (log_level l) lvl) (lines tr)).

(** A log argument that comes from a written value. *)
Definition arg_written (x : LogArg) : bool :=
  match x with
  | ArgStr (Some _) | ArgInt (Some _) | ArgULong (Some _) => true
  | _ => false
  end.

Definition line_written (l : LogLine) : bool := forallb arg_written (log_args l).

(** What the calling task holds: a handle, and through which primitive. *)
Inductive Held :=
| HeldPlain (h : SemaphoreHandle_t)
| HeldRecursive (h : SemaphoreHandle_t).

(** Replays a trace on the stack of what is held, most recent first: a
    take answered [pdTRUE] pushes, a give must match the top and pops it.
    [None] when a give finds something else on top, or nothing. *)
Fixpoint holds_after `{FreeRTOSPort} (tr : list Event) (st : list Held)
  : option (list Held) :=
  match tr with
  | [] => Some st
  | EvCall (xSemaphoreTake h _) r :: tr' =>
      holds_after tr' (if r =? pdTRUE then HeldPlain h :: st else st)
  | EvCall (xSemaphoreTakeRecursive h _) r :: tr' =>
      holds_after tr' (if r =? pdTRUE then HeldRecursive h :: st else st)
  | EvCall (xSemaphoreGive h) _ :: tr' =>
      match st with
      | HeldPlain h' :: st' => if h' =? h then holds_after tr' st' else None
      | _ => None
      end
  | EvCall (xSemaphoreGiveRecursive h) _ :: tr' =>
      match st with
      | HeldRecursive h' :: st' => if h' =? h then holds_after tr' st' else None
      | _ => None
      end
  | _ :: tr' => holds_after tr' st
  end.

(** Every give of the trace returns the most recent take still held, and
    nothing is held at the end. *)
Definition balanced `{FreeRTOSPort} (tr : list Event) : Prop :=
  holds_after tr [] = Some [].

(** ** Debug instrumentation *)

Definition is_diagnostic (l : LogLine) : bool :=
  match log_level l with
  | ESP_LOG_DEBUG | ESP_LOG_WARN => true
  | _ => false
  end.

(** [p] is [q] with instrumentation added: reads of the tick count and
    debug or warn lines that [q] does not have.  Everything else is the
    same call, or an error line for an error line, and for every answer of
    the kernel the two continue alike down to results related by [R]. *)
Inductive Instrumented {A B} (R : A -> B -> Prop) : Prog A -> Prog B -> Prop :=
| Instrumented_Ret a b : R a b -> Instrumented R (Ret a) (Ret b)
| Instrumented_Call c k k' :
    is_tick c = false -> (forall r, Instrumented R (k r) (k' r)) ->
    Instrumented R (Call c k) (Call c k')
| Instrumented_Error l l' k k' :
    log_level l = ESP_LOG_ERROR -> log_level l' = ESP_LOG_ERROR ->
    Instrumented R k k' -> Instrumented R (Emit l k) (Emit l' k')
| Instrumented_Tick k q :
    (forall r, Instrumented R (k r) q) ->
    Instrumented R (Call xTaskGetTickCount k) q
| Instrumented_Diagnostic l k q :
    is_diagnostic l = true -> Instrumented R k q ->
    Instrumented R (Emit l k) q.

(** The calls of a trace other than reads of the tick count. *)
Definition locking_calls (tr : list Event) : list KernelCall :=
  filter (fun c => negb (is_tick c)) (calls tr).

Definition same_lock (g g' : SemaphoreGuard.t) : Prop :=
  SemaphoreGuard.m_handle g = SemaphoreGuard.m_handle g'
  /\ SemaphoreGuard.m_taken g = SemaphoreGuard.m_taken g'.

Definition same_lock_recursive (g g' : RecursiveSemaphoreGuard.t) : Prop :=
  RecursiveSemaphoreGuard.m_handle g = RecursiveSemaphoreGuard.m_handle g'
  /\ RecursiveSemaphoreGuard.m_taken g = RecursiveSemaphoreGuard.m_taken g'.

(** The tick counts a trace read, in order. *)
Fixpoint tick_reads (tr : list Event) : list Z :=
  match tr with
  | [] => []
  | EvCall xTaskGetTickCount r :: tr' => r :: tick_reads tr'
  | _ :: tr' => tick_reads tr'
  end.

(** The overload that logs a take that failed. *)
Definition warns_on_timeout (a : CtorArgs) : bool :=
  match a with TimedAt _ _ _ _ => true | _ => false end.

(** ** examples/basic_usage.cpp: class SafeCounter *)

(** [int] on the target: 32 bits, two's complement.  (An increment past
    INT_MAX is undefined in C++; it is taken to wrap, as the hardware
    does.) *)
Definition int_wrap (x : Z) : Z := (x + 2 ^ 31) mod 2 ^ 32 - 2 ^ 31.

(** A [Serial.printf] call: the format and its arguments. *)
Record SerialLine := {
  serial_format : string;
  serial_args : list LogArg
}.

Definition newline : string := String (Ascii.ascii_of_nat 10) EmptyString.

Module SafeCounter.

Record t := {
  value : Z;
  mutex : SemaphoreHandle_t
}.

Definition set_value (v : Z) (this : t) : t :=
  {| value := v; mutex := mutex this |}.

Section WithPort.
Context {port : FreeRTOSPort}.
(** Whether SEMAPHORE_GUARD_DEBUG is defined, and the global
    [xSerialMutex]. *)
Variable debug : bool.
Variable xSerialMutex : SemaphoreHandle_t.

(** The member functions take the object and what [Serial] has printed
    so far, and hand both back. *)

(** [void log(const char* message)] *)
Definition log (message : string) (this : t) (Serial : list SerialLine)
  : Prog (t * list SerialLine) :=
  RecursiveSemaphoreGuard_scope debug (Plain (mutex this)) (fun guard =>
    x <- RecursiveSemaphoreGuard.hasLock guard ;;
    if (fst x : bool) then
      SemaphoreGuard_scope debug (Plain xSerialMutex) (fun serialGuard =>
        y <- SemaphoreGuard.hasLock serialGuard ;;
        if (fst y : bool) then
          ret (this,
               Serial ++
               [{| serial_format :=
                     ("[SafeCounter] %s (value=%d)" ++ newline)%string;
                   serial_args := [ArgStr (Some message);
                                   ArgInt (Some (value this))] |}])
        else ret (this, Serial))
    else ret (this, Serial)).

(** [void reset()] *)
Definition reset (this : t) (Serial : list SerialLine)
  : Prog (t * list SerialLine) :=
  RecursiveSemaphoreGuard_scope debug (Plain (mutex this)) (fun guard =>
    x <- RecursiveSemaphoreGuard.hasLock guard ;;
    if (fst x : bool) then
      let this := set_value 0 this in
      log "Counter reset" this Serial
    else ret (this, Serial)).

(** [void increment()] *)
Definition increment (this : t) (Serial : list SerialLine)
  : Prog (t * list SerialLine) :=
  RecursiveSemaphoreGuard_scope debug (Plain (mutex this)) (fun guard =>
    x <- RecursiveSemaphoreGuard.hasLock guard ;;
    if (fst x : bool) then
      let this := set_value (int_wrap (value this + 1)) this in
      if 10 <=? value this then reset this Serial
      else ret (this, Serial)
    else ret (this, Serial)).

(** [int getValue()] *)
Definition getValue (this : t) : Prog (Z * t) :=
  RecursiveSemaphoreGuard_scope debug (Plain (mutex this)) (fun guard =>
    x <- RecursiveSemaphoreGuard.hasLock guard ;;
    if (fst x : bool) then ret (value this, this)
    else ret (-1, this)).

End WithPort.
End SafeCounter.


(** Which semaphore a kernel call is about, if any. *)
Definition call_handle (c : KernelCall) : option SemaphoreHandle_t :=
  match c with
  | xSemaphoreTake h _ | xSemaphoreTakeRecursive h _
  | xSemaphoreGive h | xSemaphoreGiveRecursive h => Some h
  | xPortInIsrContext | xTaskGetTickCount => None
  end.

Definition counter_without_mutex : SafeCounter.t :=
  {| SafeCounter.value := 5; SafeCounter.mutex := nullptr |}.

(** ** Case analysis of a run *)

Create HintDb guard discriminated.
#[global] Hint Unfold
  SemaphoreGuard.construct SemaphoreGuard.ctor SemaphoreGuard.ctor_timeout
  SemaphoreGuard.ctor_debug SemaphoreGuard.ctor_timeout_debug
  SemaphoreGuard.dtor SemaphoreGuard.hasLock SemaphoreGuard.isValid
  SemaphoreGuard.getHandle SemaphoreGuard.observe
  RecursiveSemaphoreGuard.construct RecursiveSemaphoreGuard.ctor
  RecursiveSemaphoreGuard.ctor_timeout RecursiveSemaphoreGuard.ctor_debug
  RecursiveSemaphoreGuard.ctor_timeout_debug RecursiveSemaphoreGuard.dtor
  RecursiveSemaphoreGuard.hasLock RecursiveSemaphoreGuard.isValid
  RecursiveSemaphoreGuard.getHandle RecursiveSemaphoreGuard.observe
  SEMG_LOG_E SEMG_LOG_W SEMG_LOG_D RSEMG_LOG_E RSEMG_LOG_W RSEMG_LOG_D
  call emit in_isr : guard.

Ltac guard_simpl := cbn -[Z.eqb Z.modulo Z.pow] in *.

(** One step through a run: reuse a test already decided, name the
    kernel's next answer, or split on the next test. *)
Ltac run_step :=
  match goal with
  | H : (_, _) = (_, _) |- _ => inversion H; subst; clear H
  | H : ?b = true |- context [?b] => rewrite H
  | H : ?b = false |- context [?b] => rewrite H
  | |- context [answer ?k ?c ?s] =>
      let r := fresh "r" in let s' := fresh "s" in
      destruct (answer k c s) as [r s'] eqn:?
  | |- context [if ?b then _ else _] => destruct b eqn:?
  end; guard_simpl.

Ltac run_cases := autounfold with guard; guard_simpl; repeat run_step.

(** One step through a pair of bodies that should mirror each other. *)
Ltac mirror_step :=
  first
    [ apply Mirror_Ret
    | apply Mirror_Call; [constructor | intros ?]
    | apply Mirror_Emit; [repeat split | ]
    | match goal with
      | |- context [if ?b then _ else _] => destruct b
      end ];
  guard_simpl.

(** One step through a body and the body it instruments. *)
Ltac instrumented_step :=
  first
    [ apply Instrumented_Ret
    | apply Instrumented_Tick; intros ?
    | apply Instrumented_Call; [reflexivity | intros ?]
    | apply Instrumented_Error; [reflexivity | reflexivity | ]
    | apply Instrumented_Diagnostic; [reflexivity | ]
    | match goal with
      | |- context [if ?b then _ else _] => destruct b
      end ];
  guard_simpl.

(** Unfolding and case analysis for the member functions of SafeCounter. *)
Ltac scope_unfold :=
  unfold SafeCounter.increment, SafeCounter.reset, SafeCounter.log,
    SafeCounter.getValue, SemaphoreGuard_scope, RecursiveSemaphoreGuard_scope.

Ltac counter_cases :=
  scope_unfold; scope_unfold; scope_unfold; run_cases;
  rewrite ?Z.eqb_refl, ?orb_false_r, ?andb_true_r in *; try guard_simpl.

(** * Properties *)

(** ** Executing bodies *)

Lemma run_bind {K A B} (kern : Kernel K) (p : Prog A) (f : A -> Prog B) (s : K) :
  run kern (Prog_bind p f) s =
  let '(a, s1, tr1) := run kern p s in
  let '(b, s2, tr2) := run kern (f a) s1 in
  (b, s2, tr1 ++ tr2).
Proof.
  revert s. induction p as [a | c k IH | l k IH]; intros s; cbn [Prog_bind run].
  - destruct (run kern (f a) s) as [[b s2] tr2]. reflexivity.
  - destruct (answer kern c s) as [r s1]. rewrite IH.
    destruct (run kern (k r) s1) as [[a s2] tr1].
    destruct (run kern (f a) s2) as [[b s3] tr2]. reflexivity.
  - rewrite IH. destruct (run kern k (sink kern l s)) as [[a s2] tr1].
    destruct (run kern (f a) s2) as [[b s3] tr2]. reflexivity.
Qed.

(** A body with a value makes no interaction under any kernel. *)
Lemma value_of_run {K A} (kern : Kernel K) (p : Prog A) (a : A) (s : K) :
  value_of p = Some a -> run kern p s = (a, s, []).
Proof.
  destruct p; cbn; intros E; try discriminate. now inversion E.
Qed.

(** Mirrored bodies run to mirrored traces on kernels that treat the
    recursive entry points as they treat the plain ones. *)
Lemma Mirror_run {K A B} (R : A -> B -> Prop) (kern kern' : Kernel K) :
  (forall c c' s, mirror_call c c' -> answer kern' c' s = answer kern c s) ->
  (forall l l' s, mirror_line l l' -> sink kern' l' s = sink kern l s) ->
  forall p p', Mirror R p p' -> forall s,
    let '(a, s1, tr) := run kern p s in
    let '(b, s1', tr') := run kern' p' s in
    R a b /\ s1' = s1 /\ Forall2 mirror_event tr tr'.
Proof.
  intros Hans Hsink p p' M.
  induction M as [a b HR | c c' k k' Hc _ IH | l l' k k' Hl _ IH]; intros s;
    cbn [run].
  - auto.
  - rewrite (Hans _ _ s Hc). destruct (answer kern c s) as [r s0].
    specialize (IH r s0).
    destruct (run kern (k r) s0) as [[a s1] tr].
    destruct (run kern' (k' r) s0) as [[b s1'] tr'].
    destruct IH as (HR & Hs & Htr). repeat split; trivial.
    constructor; [now constructor | assumption].
  - rewrite (Hsink _ _ s Hl). specialize (IH (sink kern l s)).
    destruct (run kern k (sink kern l s)) as [[a s1] tr].
    destruct (run kern' k' (sink kern l s)) as [[b s1'] tr'].
    destruct IH as (HR & Hs & Htr). repeat split; trivial.
    constructor; [now constructor | assumption].
Qed.

(** ** The destructors *)

(** The destructor of a guard that does not hold the lock is the empty
    body, in both build variants. *)
Lemma SemaphoreGuard_dtor_not_taken `{FreeRTOSPort} debug g :
  SemaphoreGuard.m_taken g = false -> SemaphoreGuard.dtor debug g = Ret tt.
Proof. intros E. unfold SemaphoreGuard.dtor. now rewrite E. Qed.

Lemma RecursiveSemaphoreGuard_dtor_not_taken `{FreeRTOSPort} debug g :
  RecursiveSemaphoreGuard.m_taken g = false ->
  RecursiveSemaphoreGuard.dtor debug g = Ret tt.
Proof. intros E. unfold RecursiveSemaphoreGuard.dtor. now rewrite E. Qed.

(** The destructor of a guard that holds the lock on a non-null handle
    gives the semaphore back once, whatever the kernel answers. *)
Lemma SemaphoreGuard_dtor_taken `{FreeRTOSPort} {K} (kern : Kernel K) debug g s :
  SemaphoreGuard.m_taken g = true -> SemaphoreGuard.m_handle g <> nullptr ->
  releases (snd (run kern (SemaphoreGuard.dtor debug g) s))
  = [xSemaphoreGive (SemaphoreGuard.m_handle g)].
Proof.
  intros E N. apply Z.eqb_neq in N. unfold SemaphoreGuard.dtor.
  rewrite E, N. destruct debug; run_cases; reflexivity.
Qed.

Lemma RecursiveSemaphoreGuard_dtor_taken `{FreeRTOSPort} {K} (kern : Kernel K)
    debug g s :
  RecursiveSemaphoreGuard.m_taken g = true ->
  RecursiveSemaphoreGuard.m_handle g <> nullptr ->
  releases (snd (run kern (RecursiveSemaphoreGuard.dtor debug g) s))
  = [xSemaphoreGiveRecursive (RecursiveSemaphoreGuard.m_handle g)].
Proof.
  intros E N. apply Z.eqb_neq in N. unfold RecursiveSemaphoreGuard.dtor.
  rewrite E, N. destruct debug; run_cases; reflexivity.
Qed.

(** ** What every construction establishes *)

(** The stored handle is the constructor's argument, and the flag is set
    only over a non-null handle. *)
Lemma SemaphoreGuard_construct_members `{FreeRTOSPort} {K} (kern : Kernel K) a s :
  let g := fst (fst (run kern (SemaphoreGuard.construct a) s)) in
  SemaphoreGuard.m_handle g = args_handle a /\
  (SemaphoreGuard.m_taken g = true -> args_handle a <> nullptr).
Proof.
  destruct a; run_cases; (split; [reflexivity | ]); intros E;
    try discriminate E; now apply Z.eqb_neq.
Qed.

Lemma RecursiveSemaphoreGuard_construct_members `{FreeRTOSPort} {K}
    (kern : Kernel K) a s :
  let g := fst (fst (run kern (RecursiveSemaphoreGuard.construct a) s)) in
  RecursiveSemaphoreGuard.m_handle g = args_handle a /\
  (RecursiveSemaphoreGuard.m_taken g = true -> args_handle a <> nullptr).
Proof.
  destruct a; run_cases; (split; [reflexivity | ]); intros E;
    try discriminate E; now apply Z.eqb_neq.
Qed.

(** The flag a construction leaves is the outcome of its take call. *)
Lemma construct_flag_is_take_outcome :
  forall (port : FreeRTOSPort) (K : Type) (kern : Kernel K)
         (a : CtorArgs) (s : K),
    (let '(g, _, tr) := run kern (SemaphoreGuard.construct a) s in
     SemaphoreGuard.m_taken g = take_succeeded (args_handle a) tr)
    /\
    (let '(g, _, tr) := run kern (RecursiveSemaphoreGuard.construct a) s in
     RecursiveSemaphoreGuard.m_taken g
     = take_recursive_succeeded (args_handle a) tr).
Proof.
  intros port K kern a s.
  split; destruct a; run_cases; rewrite ?Z.eqb_refl, ?orb_false_r;
    cbn [andb orb]; congruence.
Qed.

(** C1: destroying a constructed guard of either class issues exactly one
    kernel release ([xSemaphoreGive], resp. [xSemaphoreGiveRecursive], on
    the constructor's handle) when the acquired flag is set, and when the
    flag is clear it makes no interaction at all and leaves the kernel
    state as it was.  It holds for every constructor overload, both build
    variants and every kernel. *)
Theorem C1_destructor_releases_iff_acquired :
  forall (port : FreeRTOSPort) (K : Type) (kern : Kernel K) (debug : bool)
         (a : CtorArgs) (s : K),
    (let '(g, s1, _) := run kern (SemaphoreGuard.construct a) s in
     let '(_, s2, tr) := run kern (SemaphoreGuard.dtor debug g) s1 in
     if SemaphoreGuard.m_taken g
     then releases tr = [xSemaphoreGive (args_handle a)]
     else tr = [] /\ s2 = s1)
    /\
    (let '(g, s1, _) := run kern (RecursiveSemaphoreGuard.construct a) s in
     let '(_, s2, tr) := run kern (RecursiveSemaphoreGuard.dtor debug g) s1 in
     if RecursiveSemaphoreGuard.m_taken g
     then releases tr = [xSemaphoreGiveRecursive (args_handle a)]
     else tr = [] /\ s2 = s1).
Proof.
  intros port K kern debug a s. split.
  - pose proof (SemaphoreGuard_construct_members kern a s) as [Hh Hn].
    destruct (run kern (SemaphoreGuard.construct a) s) as [[g s1] tr0].
    cbn [fst] in Hh, Hn.
    destruct (SemaphoreGuard.m_taken g) eqn:E.
    + pose proof (SemaphoreGuard_dtor_taken kern debug g s1 E) as R.
      rewrite Hh in R. specialize (R (Hn eq_refl)).
      destruct (run kern (SemaphoreGuard.dtor debug g) s1) as [[u s2] tr].
      exact R.
    + rewrite (SemaphoreGuard_dtor_not_taken debug g E). cbn. split; reflexivity.
  - pose proof (RecursiveSemaphoreGuard_construct_members kern a s) as [Hh Hn].
    destruct (run kern (RecursiveSemaphoreGuard.construct a) s) as [[g s1] tr0].
    cbn [fst] in Hh, Hn.
    destruct (RecursiveSemaphoreGuard.m_taken g) eqn:E.
    + pose proof (RecursiveSemaphoreGuard_dtor_taken kern debug g s1 E) as R.
      rewrite Hh in R. specialize (R (Hn eq_refl)).
      destruct (run kern (RecursiveSemaphoreGuard.dtor debug g) s1)
        as [[u s2] tr].
      exact R.
    + rewrite (RecursiveSemaphoreGuard_dtor_not_taken debug g E). cbn.
      split; reflexivity.
Qed.

(** C2: after any construction of either guard, [hasLock()] returns true
    exactly when the construction's trace holds the kernel take call on
    this guard's handle answered [pdTRUE]; the construction itself issues
    no release; and the take call is issued (once, with the constructor's
    wait bound) exactly when the handle is non-null and the kernel does
    not report interrupt context, so that otherwise [hasLock()] is
    false. *)
Theorem C2_hasLock_iff_take_succeeded :
  forall (port : FreeRTOSPort) (K : Type) (kern : Kernel K)
         (a : CtorArgs) (s : K),
    (let '(g, _, tr) := run kern (SemaphoreGuard.construct a) s in
     value_of (SemaphoreGuard.hasLock g)
       = Some (take_succeeded (args_handle a) tr, g)
     /\ releases tr = []
     /\ takes tr = (if (args_handle a =? nullptr) || in_isr kern s then []
                    else [xSemaphoreTake (args_handle a) (args_timeout a)]))
    /\
    (let '(g, _, tr) := run kern (RecursiveSemaphoreGuard.construct a) s in
     value_of (RecursiveSemaphoreGuard.hasLock g)
       = Some (take_recursive_succeeded (args_handle a) tr, g)
     /\ releases tr = []
     /\ takes tr = (if (args_handle a =? nullptr) || in_isr kern s then []
                    else [xSemaphoreTakeRecursive (args_handle a)
                            (args_timeout a)])).
Proof.
  intros port K kern a s.
  split; destruct a; run_cases;
    rewrite ?Z.eqb_refl, ?orb_false_r; cbn [andb orb];
    repeat split; try reflexivity; try discriminate; congruence.
Qed.

(** C3: constructing either guard over a null handle, through any
    overload and with any wait bound, returns a guard after writing one
    error-severity log line and nothing else (no kernel call, hence no
    take); [hasLock()] and [isValid()] are both false on it. *)
Theorem C3_null_handle :
  forall (port : FreeRTOSPort) (K : Type) (kern : Kernel K)
         (a : CtorArgs) (s : K),
    args_handle a = nullptr ->
    (exists g l,
        run kern (SemaphoreGuard.construct a) s = (g, sink kern l s, [EvLog l])
        /\ log_level l = ESP_LOG_ERROR
        /\ value_of (SemaphoreGuard.hasLock g) = Some (false, g)
        /\ value_of (SemaphoreGuard.isValid g) = Some (false, g))
    /\
    (exists g l,
        run kern (RecursiveSemaphoreGuard.construct a) s
          = (g, sink kern l s, [EvLog l])
        /\ log_level l = ESP_LOG_ERROR
        /\ value_of (RecursiveSemaphoreGuard.hasLock g) = Some (false, g)
        /\ value_of (RecursiveSemaphoreGuard.isValid g) = Some (false, g)).
Proof.
  intros port K kern a s Hnull.
  split; destruct a; cbn [args_handle] in Hnull; subst;
    autounfold with guard; cbn; do 2 eexists; repeat split.
Qed.

(** C4: constructing either guard over a non-null handle while the kernel
    reports interrupt context returns a guard after the context query and
    one error-severity log line and nothing else (no take call, so nothing
    that can block); [hasLock()] is false on it. *)
Theorem C4_isr_context_refused :
  forall (port : FreeRTOSPort) (K : Type) (kern : Kernel K)
         (a : CtorArgs) (s : K),
    args_handle a <> nullptr ->
    in_isr kern s = true ->
    (exists g l,
        run kern (SemaphoreGuard.construct a) s
          = (g, sink kern l (snd (answer kern xPortInIsrContext s)),
             [EvCall xPortInIsrContext (fst (answer kern xPortInIsrContext s));
              EvLog l])
        /\ log_level l = ESP_LOG_ERROR
        /\ value_of (SemaphoreGuard.hasLock g) = Some (false, g))
    /\
    (exists g l,
        run kern (RecursiveSemaphoreGuard.construct a) s
          = (g, sink kern l (snd (answer kern xPortInIsrContext s)),
             [EvCall xPortInIsrContext (fst (answer kern xPortInIsrContext s));
              EvLog l])
        /\ log_level l = ESP_LOG_ERROR
        /\ value_of (RecursiveSemaphoreGuard.hasLock g) = Some (false, g)).
Proof.
  intros port K kern a s Hh Hisr. apply Z.eqb_neq in Hh.
  unfold in_isr in Hisr.
  split; destruct a; cbn [args_handle] in Hh;
    autounfold with guard; guard_simpl; rewrite Hh; guard_simpl;
    revert Hisr; destruct (answer kern xPortInIsrContext s) as [r s1]; guard_simpl;
    intros Hisr; rewrite Hisr; guard_simpl; do 2 eexists; repeat split.
Qed.

(** ** Observer calls *)

(** Any sequence of observer calls is a body without interaction that
    hands the guard back unchanged; every [hasLock()] in it answers the
    flag, every [isValid()] whether the handle is non-null, every
    [getHandle()] the handle. *)
Lemma SemaphoreGuard_observe_all_pure `{FreeRTOSPort} os g :
  SemaphoreGuard.observe_all os g
  = Ret (map (fun o => match o with
                       | HasLock => ObsBool (SemaphoreGuard.m_taken g)
                       | IsValid =>
                           ObsBool (negb (SemaphoreGuard.m_handle g =? nullptr))
                       | GetHandle => ObsHandle (SemaphoreGuard.m_handle g)
                       end) os, g).
Proof.
  induction os as [| o os IH]; [reflexivity | ].
  cbn [SemaphoreGuard.observe_all map].
  destruct o; cbn; rewrite IH; reflexivity.
Qed.

Lemma RecursiveSemaphoreGuard_observe_all_pure `{FreeRTOSPort} os g :
  RecursiveSemaphoreGuard.observe_all os g
  = Ret (map (fun o => match o with
                       | HasLock => ObsBool (RecursiveSemaphoreGuard.m_taken g)
                       | IsValid =>
                           ObsBool
                             (negb (RecursiveSemaphoreGuard.m_handle g =? nullptr))
                       | GetHandle =>
                           ObsHandle (RecursiveSemaphoreGuard.m_handle g)
                       end) os, g).
Proof.
  induction os as [| o os IH]; [reflexivity | ].
  cbn [RecursiveSemaphoreGuard.observe_all map].
  destruct o; cbn; rewrite IH; reflexivity.
Qed.

(** C6: on a guard of either class built by any constructor, every
    sequence of [hasLock()], [isValid()] and [getHandle()] calls is a body
    that makes no kernel interaction and hands back the guard with all
    members as construction left them.  Throughout the sequence
    [hasLock()] answers whether the construction's take call succeeded
    (so a construction that failed to acquire never shows as acquired
    later), [isValid()] answers whether the constructor's handle is
    non-null whatever the acquisition outcome, and [getHandle()] answers
    the constructor's handle. *)
Theorem C6_observers_pure :
  forall (port : FreeRTOSPort) (K : Type) (kern : Kernel K)
         (a : CtorArgs) (s : K) (os : list Observer),
    (let '(g, _, tr) := run kern (SemaphoreGuard.construct a) s in
     SemaphoreGuard.observe_all os g
     = Ret (map (fun o => match o with
                          | HasLock =>
                              ObsBool (take_succeeded (args_handle a) tr)
                          | IsValid =>
                              ObsBool (negb (args_handle a =? nullptr))
                          | GetHandle => ObsHandle (args_handle a)
                          end) os, g))
    /\
    (let '(g, _, tr) := run kern (RecursiveSemaphoreGuard.construct a) s in
     RecursiveSemaphoreGuard.observe_all os g
     = Ret (map (fun o => match o with
                          | HasLock =>
                              ObsBool
                                (take_recursive_succeeded (args_handle a) tr)
                          | IsValid =>
                              ObsBool (negb (args_handle a =? nullptr))
                          | GetHandle => ObsHandle (args_handle a)
                          end) os, g)).
Proof.
  intros port K kern a s os. split.
  - pose proof (SemaphoreGuard_construct_members kern a s) as [Hh _].
    pose proof (proj1 (construct_flag_is_take_outcome port K kern a s)) as Ht.
    destruct (run kern (SemaphoreGuard.construct a) s) as [[g s1] tr].
    cbn [fst] in Hh. rewrite SemaphoreGuard_observe_all_pure, Hh, Ht.
    reflexivity.
  - pose proof (RecursiveSemaphoreGuard_construct_members kern a s) as [Hh _].
    pose proof (proj2 (construct_flag_is_take_outcome port K kern a s)) as Ht.
    destruct (run kern (RecursiveSemaphoreGuard.construct a) s) as [[g s1] tr].
    cbn [fst] in Hh. rewrite RecursiveSemaphoreGuard_observe_all_pure, Hh, Ht.
    reflexivity.
Qed.

(** ** The two classes side by side *)

Lemma construct_Mirror `{FreeRTOSPort} (a : CtorArgs) :
  Mirror same_members (SemaphoreGuard.construct a)
    (RecursiveSemaphoreGuard.construct a).
Proof.
  destruct a; autounfold with guard; guard_simpl;
    repeat mirror_step; reflexivity.
Qed.

Lemma dtor_Mirror `{FreeRTOSPort} (debug : bool) (g : SemaphoreGuard.t) :
  Mirror eq (SemaphoreGuard.dtor debug g)
    (RecursiveSemaphoreGuard.dtor debug (to_recursive g)).
Proof.
  destruct debug; autounfold with guard; guard_simpl;
    repeat mirror_step; reflexivity.
Qed.

(** C7: for every constructor overload and argument list, the body of
    the recursive guard's constructor is the mirror image of the binary
    guard's: the same null test, the same interrupt-context query, log
    lines of the same severity and arguments, [xSemaphoreTakeRecursive]
    with the same handle and wait bound where the binary guard calls
    [xSemaphoreTake], and, for every answer of the kernel, guards with
    equal members.  On guards with equal members the destructors mirror
    each other in both build variants, with [xSemaphoreGiveRecursive]
    where the binary guard calls [xSemaphoreGive], and the three observers
    agree.  Run against the same script of kernel answers, the two
    classes therefore leave equal members and mirrored traces, at
    construction and at destruction. *)
Theorem C7_recursive_mirrors_binary :
  forall (port : FreeRTOSPort),
    (forall a : CtorArgs,
        Mirror same_members (SemaphoreGuard.construct a)
          (RecursiveSemaphoreGuard.construct a))
    /\ (forall (debug : bool) (g : SemaphoreGuard.t),
           Mirror eq (SemaphoreGuard.dtor debug g)
             (RecursiveSemaphoreGuard.dtor debug (to_recursive g)))
    /\ (forall g : SemaphoreGuard.t,
           Mirror same_result (SemaphoreGuard.hasLock g)
             (RecursiveSemaphoreGuard.hasLock (to_recursive g))
           /\ Mirror same_result (SemaphoreGuard.isValid g)
                (RecursiveSemaphoreGuard.isValid (to_recursive g))
           /\ Mirror same_result (SemaphoreGuard.getHandle g)
                (RecursiveSemaphoreGuard.getHandle (to_recursive g)))
    /\ (forall (a : CtorArgs) (debug : bool) (script : list Z),
           let '(g, s1, tr) :=
             run scripted (SemaphoreGuard.construct a) script in
           let '(g', s1', tr') :=
             run scripted (RecursiveSemaphoreGuard.construct a) script in
           g' = to_recursive g /\ s1' = s1 /\ Forall2 mirror_event tr tr'
           /\ Forall2 mirror_event
                (snd (run scripted (SemaphoreGuard.dtor debug g) s1))
                (snd (run scripted (RecursiveSemaphoreGuard.dtor debug g') s1'))).
Proof.
  intros port. split; [ | split; [ | split]].
  - apply construct_Mirror.
  - apply dtor_Mirror.
  - intros g. repeat split; reflexivity || (constructor; split; reflexivity).
  - intros a debug script.
    pose proof (Mirror_run same_members scripted scripted
                  (fun _ _ _ _ => eq_refl) (fun _ _ _ _ => eq_refl)
                  _ _ (construct_Mirror a) script) as C.
    destruct (run scripted (SemaphoreGuard.construct a) script)
      as [[g s1] tr].
    destruct (run scripted (RecursiveSemaphoreGuard.construct a) script)
      as [[g' s1'] tr'].
    destruct C as (Hg & Hs & Htr). unfold same_members in Hg. subst g' s1'.
    repeat split; trivial.
    pose proof (Mirror_run eq scripted scripted
                  (fun _ _ _ _ => eq_refl) (fun _ _ _ _ => eq_refl)
                  _ _ (dtor_Mirror debug g) s1) as D.
    destruct (run scripted (SemaphoreGuard.dtor debug g) s1) as [[u s2] trd].
    destruct (run scripted (RecursiveSemaphoreGuard.dtor debug (to_recursive g)) s1)
      as [[u' s2'] trd'].
    exact (proj2 (proj2 D)).
Qed.

(** The mirror relation tells the two primitives apart: the binary
    guard's take is not the mirror image of itself. *)
Lemma Mirror_not_reflexive :
  ~ Mirror (@eq Z) (call (xSemaphoreTake 1 0)) (call (xSemaphoreTake 1 0)).
Proof. intros M. inversion M as [ | c c' k k' Hc _ | ]. inversion Hc. Qed.

(** ** Hold time in the debug build *)

(** The release line of the debug build's destructor is made of
    [m_file], [m_line] and the tick count at destruction minus
    [m_acquireTime], as those members stand. *)
Lemma SemaphoreGuard_dtor_debug_line `{FreeRTOSPort} {K} (kern : Kernel K) g s :
  SemaphoreGuard.m_taken g = true -> SemaphoreGuard.m_handle g <> nullptr ->
  map log_args (lines (snd (run kern (SemaphoreGuard.dtor true g) s)))
  = [[ArgStr (SemaphoreGuard.m_file g); ArgInt (SemaphoreGuard.m_line g);
      ArgULong (option_map
                  (fun acq => to_ulong
                     (tick_sub (fst (answer kern xTaskGetTickCount s)) acq))
                  (SemaphoreGuard.m_acquireTime g))]].
Proof.
  intros E N. apply Z.eqb_neq in N. unfold SemaphoreGuard.dtor.
  rewrite E, N. run_cases. now destruct (SemaphoreGuard.m_acquireTime g).
Qed.

Lemma RecursiveSemaphoreGuard_dtor_debug_line `{FreeRTOSPort} {K}
    (kern : Kernel K) g s :
  RecursiveSemaphoreGuard.m_taken g = true ->
  RecursiveSemaphoreGuard.m_handle g <> nullptr ->
  map log_args (lines (snd (run kern (RecursiveSemaphoreGuard.dtor true g) s)))
  = [[ArgStr (RecursiveSemaphoreGuard.m_file g);
      ArgInt (RecursiveSemaphoreGuard.m_line g);
      ArgULong (option_map
                  (fun acq => to_ulong
                     (tick_sub (fst (answer kern xTaskGetTickCount s)) acq))
                  (RecursiveSemaphoreGuard.m_acquireTime g))]].
Proof.
  intros E N. apply Z.eqb_neq in N. unfold RecursiveSemaphoreGuard.dtor.
  rewrite E, N. run_cases.
  now destruct (RecursiveSemaphoreGuard.m_acquireTime g).
Qed.

(** A guard built by a constructor that takes file and line, and that
    acquired, carries that file and line and the tick count read during
    its construction. *)
Lemma SemaphoreGuard_debug_ctor_members `{FreeRTOSPort} {K} (kern : Kernel K)
    a s :
  debug_only a = true ->
  let '(g, _, tr) := run kern (SemaphoreGuard.construct a) s in
  SemaphoreGuard.m_taken g = true ->
  exists file line acq,
    SemaphoreGuard.m_file g = Some file
    /\ SemaphoreGuard.m_line g = Some line
    /\ SemaphoreGuard.m_acquireTime g = Some acq
    /\ In (EvCall xTaskGetTickCount acq) tr.
Proof.
  destruct a; cbn [debug_only]; intros D; try discriminate D;
    run_cases; intros E; try discriminate E;
    do 3 eexists; repeat split; cbn; tauto.
Qed.

(** So the hold time such a guard logs at release is the tick count at
    destruction minus the tick count recorded at construction, in
    [TickType_t] arithmetic. *)
Lemma SemaphoreGuard_debug_ctor_hold_time `{FreeRTOSPort} {K} (kern : Kernel K)
    a s s' :
  debug_only a = true ->
  let '(g, _, tr) := run kern (SemaphoreGuard.construct a) s in
  SemaphoreGuard.m_taken g = true ->
  exists file line acq,
    In (EvCall xTaskGetTickCount acq) tr
    /\ map log_args (lines (snd (run kern (SemaphoreGuard.dtor true g) s')))
       = [[ArgStr (Some file); ArgInt (Some line);
           ArgULong (Some (to_ulong
              (tick_sub (fst (answer kern xTaskGetTickCount s')) acq)))]].
Proof.
  intros D.
  pose proof (SemaphoreGuard_debug_ctor_members kern a s D) as M.
  pose proof (SemaphoreGuard_construct_members kern a s) as [Hh Hn].
  destruct (run kern (SemaphoreGuard.construct a) s) as [[g s1] tr].
  cbn [fst] in Hh, Hn. intros E.
  destruct (M E) as (file & line & acq & Hf & Hl & Ha & Hin).
  exists file, line, acq. split; [exact Hin | ].
  rewrite (SemaphoreGuard_dtor_debug_line kern g s' E);
    [ | rewrite Hh; exact (Hn E)].
  rewrite Hf, Hl, Ha. reflexivity.
Qed.

(** In the debug build, a guard of either class built by a
    constructor without file and line (they stay declared in that build)
    has [m_acquireTime], [m_file] and [m_line] unwritten, whether or not
    it acquires; when it acquired, its destructor writes the release line
    from those three unwritten members, and no line otherwise. *)
Lemma plain_ctor_leaves_debug_members_unwritten :
  forall (port : FreeRTOSPort) (K : Type) (kern : Kernel K)
         (a : CtorArgs) (s : K),
    debug_only a = false ->
    (let '(g, s1, _) := run kern (SemaphoreGuard.construct a) s in
     SemaphoreGuard.m_acquireTime g = None
     /\ SemaphoreGuard.m_file g = None /\ SemaphoreGuard.m_line g = None
     /\ map log_args (lines (snd (run kern (SemaphoreGuard.dtor true g) s1)))
        = if SemaphoreGuard.m_taken g
          then [[ArgStr None; ArgInt None; ArgULong None]] else [])
    /\
    (let '(g, s1, _) := run kern (RecursiveSemaphoreGuard.construct a) s in
     RecursiveSemaphoreGuard.m_acquireTime g = None
     /\ RecursiveSemaphoreGuard.m_file g = None
     /\ RecursiveSemaphoreGuard.m_line g = None
     /\ map log_args
          (lines (snd (run kern (RecursiveSemaphoreGuard.dtor true g) s1)))
        = if RecursiveSemaphoreGuard.m_taken g
          then [[ArgStr None; ArgInt None; ArgULong None]] else []).
Proof.
  intros port K kern a s D.
  destruct a; cbn [debug_only] in D; try discriminate D; split; run_cases;
    repeat split; reflexivity || congruence.
Qed.

(** C8: the debug build on the ESP32 port, [SemaphoreGuard guard(h)] with
    [h = 1000] from task context, the take answered [pdTRUE], tick count
    500 at scope exit.  The guard holds the lock, no constructor wrote
    [m_acquireTime], [m_file] or [m_line], and the destructor builds its
    release line from these three unwritten members: the logged hold time
    is not the tick count at destruction minus a recorded acquire time. *)
Theorem C8_debug_dtor_reads_unwritten_members :
  let '(g, s1, tr) :=
    run scripted (SemaphoreGuard.construct (port := esp32_port) (Plain 1000))
      [0; 1; 500; 1] in
  tr = [EvCall xPortInIsrContext 0; EvCall (xSemaphoreTake 1000 4294967295) 1]
  /\ value_of (SemaphoreGuard.hasLock g) = Some (true, g)
  /\ SemaphoreGuard.m_acquireTime g = None
  /\ SemaphoreGuard.m_file g = None
  /\ SemaphoreGuard.m_line g = None
  /\ snd (run scripted (SemaphoreGuard.dtor (port := esp32_port) true g) s1)
     = [EvCall xTaskGetTickCount 500;
        EvLog {| log_level := ESP_LOG_DEBUG; log_tag := SEMG_LOG_TAG;
                 log_format :=
                   "Releasing semaphore at %s:%d (held for %lu ticks)";
                 log_args := [ArgStr None; ArgInt None; ArgULong None] |};
        EvCall (xSemaphoreGive 1000) 1].
Proof. vm_compute. repeat split. Qed.

(** The same construction through the overload that takes file and
    line: the release line carries them and a hold time of 500 - 490. *)
Example debug_ctor_hold_time_run :
  let '(g, s1, _) :=
    run scripted
      (SemaphoreGuard.construct (port := esp32_port) (PlainAt 1000 "main.cpp" 42))
      [0; 490; 1; 500; 1] in
  map log_args
    (lines (snd (run scripted (SemaphoreGuard.dtor (port := esp32_port) true g) s1)))
  = [[ArgStr (Some "main.cpp"%string); ArgInt (Some 42); ArgULong (Some 10)]].
Proof. reflexivity. Qed.

(** C10: on a guard of either class built by any constructor,
    [hasLock()] answering true implies [isValid()] answering true; the
    destructor's test [m_taken && m_handle != nullptr] has the value of
    [m_taken] alone, and the destructor issues its release exactly when
    [m_taken] is set. *)
Theorem C10_hasLock_implies_isValid :
  forall (port : FreeRTOSPort) (K : Type) (kern : Kernel K) (debug : bool)
         (a : CtorArgs) (s : K),
    (let '(g, s1, _) := run kern (SemaphoreGuard.construct a) s in
     (value_of (SemaphoreGuard.hasLock g) = Some (true, g) ->
      value_of (SemaphoreGuard.isValid g) = Some (true, g))
     /\ SemaphoreGuard.m_taken g && negb (SemaphoreGuard.m_handle g =? nullptr)
        = SemaphoreGuard.m_taken g
     /\ releases (snd (run kern (SemaphoreGuard.dtor debug g) s1))
        = if SemaphoreGuard.m_taken g
          then [xSemaphoreGive (SemaphoreGuard.m_handle g)] else [])
    /\
    (let '(g, s1, _) := run kern (RecursiveSemaphoreGuard.construct a) s in
     (value_of (RecursiveSemaphoreGuard.hasLock g) = Some (true, g) ->
      value_of (RecursiveSemaphoreGuard.isValid g) = Some (true, g))
     /\ RecursiveSemaphoreGuard.m_taken g
        && negb (RecursiveSemaphoreGuard.m_handle g =? nullptr)
        = RecursiveSemaphoreGuard.m_taken g
     /\ releases (snd (run kern (RecursiveSemaphoreGuard.dtor debug g) s1))
        = if RecursiveSemaphoreGuard.m_taken g
          then [xSemaphoreGiveRecursive (RecursiveSemaphoreGuard.m_handle g)]
          else []).
Proof.
  intros port K kern debug a s. split.
  - pose proof (SemaphoreGuard_construct_members kern a s) as [Hh Hn].
    destruct (run kern (SemaphoreGuard.construct a) s) as [[g s1] tr].
    cbn [fst] in Hh, Hn. rewrite <- Hh in Hn.
    destruct (SemaphoreGuard.m_taken g) eqn:E.
    + specialize (Hn eq_refl).
      rewrite (SemaphoreGuard_dtor_taken kern debug g s1 E Hn).
      apply Z.eqb_neq in Hn. cbn. rewrite Hn. repeat split.
    + rewrite (SemaphoreGuard_dtor_not_taken debug g E). cbn.
      repeat split. intros X. cbn in X. congruence.
  - pose proof (RecursiveSemaphoreGuard_construct_members kern a s) as [Hh Hn].
    destruct (run kern (RecursiveSemaphoreGuard.construct a) s) as [[g s1] tr].
    cbn [fst] in Hh, Hn. rewrite <- Hh in Hn.
    destruct (RecursiveSemaphoreGuard.m_taken g) eqn:E.
    + specialize (Hn eq_refl).
      rewrite (RecursiveSemaphoreGuard_dtor_taken kern debug g s1 E Hn).
      apply Z.eqb_neq in Hn. cbn. rewrite Hn. repeat split.
    + rewrite (RecursiveSemaphoreGuard_dtor_not_taken debug g E). cbn.
      repeat split. intros X. cbn in X. congruence.
Qed.

(** ** Runs from test/test_semaphore_guard.cpp

    Each test is replayed on the ESP32 port against the script of kernel
    answers its scenario produces. *)

(** test_semaphore_guard_null_handle *)
Example test_semaphore_guard_null_handle :
  let g := fst (fst (run scripted
             (SemaphoreGuard.construct (port := esp32_port) (Plain nullptr)) []))
  in value_of (SemaphoreGuard.hasLock g) = Some (false, g)
     /\ value_of (SemaphoreGuard.isValid g) = Some (false, g).
Proof. split; reflexivity. Qed.

(** test_semaphore_guard_timeout: the semaphore is held elsewhere, the
    take is answered pdFALSE; the guard does not hold the lock and its
    destructor does nothing. *)
Example test_semaphore_guard_timeout :
  let '(g, s1, tr) :=
    run scripted (SemaphoreGuard.construct (port := esp32_port) (Timed 1000 10))
      [0; 0] in
  tr = [EvCall xPortInIsrContext 0; EvCall (xSemaphoreTake 1000 10) 0]
  /\ value_of (SemaphoreGuard.hasLock g) = Some (false, g)
  /\ run scripted (SemaphoreGuard.dtor (port := esp32_port) false g) s1
     = (tt, s1, []).
Proof. repeat split. Qed.

(** test_semaphore_guard_releases_on_destruction *)
Example test_semaphore_guard_releases_on_destruction :
  let '(g, s1, _) :=
    run scripted (SemaphoreGuard.construct (port := esp32_port) (Plain 1000))
      [0; 1; 1] in
  value_of (SemaphoreGuard.hasLock g) = Some (true, g)
  /\ snd (run scripted (SemaphoreGuard.dtor (port := esp32_port) false g) s1)
     = [EvCall (xSemaphoreGive 1000) 1].
Proof. repeat split. Qed.

(** test_semaphore_guard_get_handle, test_semaphore_guard_is_valid *)
Example test_semaphore_guard_get_handle :
  run scripted
    (SemaphoreGuard.observe_all [GetHandle; IsValid] holding_1000) []
  = ([ObsHandle 1000; ObsBool true], holding_1000, [], []).
Proof. reflexivity. Qed.

(** ** The theorems at concrete constructions *)

(** [SemaphoreGuard guard(nullptr, 10)] and its recursive twin on the
    ESP32 port. *)
Lemma C3_null_handle_witness :
  args_handle (Timed nullptr 10) = nullptr
  /\ (exists g l,
         run scripted
           (SemaphoreGuard.construct (port := esp32_port) (Timed nullptr 10)) [1]
         = (g, sink scripted l [1], [EvLog l])
         /\ log_level l = ESP_LOG_ERROR
         /\ value_of (SemaphoreGuard.hasLock g) = Some (false, g)
         /\ value_of (SemaphoreGuard.isValid g) = Some (false, g))
  /\ (exists g l,
         run scripted
           (RecursiveSemaphoreGuard.construct (port := esp32_port)
              (Timed nullptr 10)) [1]
         = (g, sink scripted l [1], [EvLog l])
         /\ log_level l = ESP_LOG_ERROR
         /\ value_of (RecursiveSemaphoreGuard.hasLock g) = Some (false, g)
         /\ value_of (RecursiveSemaphoreGuard.isValid g) = Some (false, g)).
Proof.
  split; [reflexivity | ].
  exact (C3_null_handle esp32_port (list Z) scripted (Timed nullptr 10) [1]
           eq_refl).
Defined.

(** [SemaphoreGuard guard(h)] with [h = 1000] while the kernel answers
    the context query with 1. *)
Lemma C4_isr_context_refused_witness :
  args_handle (Plain 1000) <> nullptr
  /\ in_isr scripted [1] = true
  /\ (exists g l,
         run scripted
           (SemaphoreGuard.construct (port := esp32_port) (Plain 1000)) [1]
         = (g, sink scripted l (snd (answer scripted xPortInIsrContext [1])),
            [EvCall xPortInIsrContext
               (fst (answer scripted xPortInIsrContext [1]));
             EvLog l])
         /\ log_level l = ESP_LOG_ERROR
         /\ value_of (SemaphoreGuard.hasLock g) = Some (false, g))
  /\ (exists g l,
         run scripted
           (RecursiveSemaphoreGuard.construct (port := esp32_port) (Plain 1000))
           [1]
         = (g, sink scripted l (snd (answer scripted xPortInIsrContext [1])),
            [EvCall xPortInIsrContext
               (fst (answer scripted xPortInIsrContext [1]));
             EvLog l])
         /\ log_level l = ESP_LOG_ERROR
         /\ value_of (RecursiveSemaphoreGuard.hasLock g) = Some (false, g)).
Proof.
  assert (Hh : args_handle (Plain 1000) <> nullptr)
    by (unfold nullptr; simpl; lia).
  split; [exact Hh | split; [reflexivity | ]].
  exact (C4_isr_context_refused esp32_port (list Z) scripted (Plain 1000) [1]
           Hh eq_refl).
Defined.

(** [hasLock()] and [isValid()] are both true on it. *)
Lemma C10_hasLock_implies_isValid_witness :
  run scripted (SemaphoreGuard.construct (port := esp32_port) (Timed 1000 10))
    [0; 1]
  = (holding_1000, [],
     [EvCall xPortInIsrContext 0; EvCall (xSemaphoreTake 1000 10) 1])
  /\ value_of (SemaphoreGuard.hasLock holding_1000) = Some (true, holding_1000)
  /\ value_of (SemaphoreGuard.isValid holding_1000) = Some (true, holding_1000).
Proof.
  split; [reflexivity | split; [reflexivity | ]].
  exact (proj1 (proj1 (C10_hasLock_implies_isValid esp32_port (list Z) scripted
                         false (Timed 1000 10) [0; 1]))
           eq_refl).
Defined.

(** * Further properties of the guard layer *)

(** ** Lock discipline of a trace *)

Lemma holds_after_app `{FreeRTOSPort} tr1 tr2 st :
  holds_after (tr1 ++ tr2) st
  = match holds_after tr1 st with
    | Some st1 => holds_after tr2 st1
    | None => None
    end.
Proof.
  revert st. induction tr1 as [| ev tr1 IH]; intros st; [reflexivity | ].
  destruct ev as [c r | l]; [ | apply IH].
  destruct c; cbn [app holds_after]; try apply IH;
    destruct st as [| [h' | h'] st]; try reflexivity;
    destruct (h' =? h); try reflexivity; apply IH.
Qed.

(** What a trace does to the top of the stack it does above any stack. *)
Lemma holds_after_frame `{FreeRTOSPort} tr st0 st1 st :
  holds_after tr st0 = Some st1 ->
  holds_after tr (st0 ++ st) = Some (st1 ++ st).
Proof.
  revert st0. induction tr as [| ev tr IH]; intros st0; cbn [holds_after].
  - intros E. now inversion E.
  - destruct ev as [c r | l]; [ | apply IH].
    destruct c; try apply IH.
    + destruct (r =? pdTRUE); apply (IH (_ :: st0)) || apply IH.
    + destruct (r =? pdTRUE); apply (IH (_ :: st0)) || apply IH.
    + destruct st0 as [| [h' | h'] st0]; try discriminate.
      cbn [app]. destruct (h' =? h); [apply IH | discriminate].
    + destruct st0 as [| [h' | h'] st0]; try discriminate.
      cbn [app]. destruct (h' =? h); [apply IH | discriminate].
Qed.

Lemma balanced_frame `{FreeRTOSPort} tr st :
  balanced tr -> holds_after tr st = Some st.
Proof. intros B. exact (holds_after_frame tr [] [] st B). Qed.

(** A construction pushes its handle exactly when it sets the flag, and
    the destructor of the guard it built pops it again. *)
Lemma SemaphoreGuard_construct_holds `{FreeRTOSPort} {K} (kern : Kernel K)
    a s st :
  let '(g, _, tr) := run kern (SemaphoreGuard.construct a) s in
  holds_after tr st
  = Some (if SemaphoreGuard.m_taken g
          then HeldPlain (SemaphoreGuard.m_handle g) :: st else st)
  /\ (SemaphoreGuard.m_taken g = true -> SemaphoreGuard.m_handle g <> nullptr).
Proof.
  destruct a; run_cases; (split; [reflexivity || congruence | ]);
    intros E; try discriminate E; now apply Z.eqb_neq.
Qed.

Lemma RecursiveSemaphoreGuard_construct_holds `{FreeRTOSPort} {K}
    (kern : Kernel K) a s st :
  let '(g, _, tr) := run kern (RecursiveSemaphoreGuard.construct a) s in
  holds_after tr st
  = Some (if RecursiveSemaphoreGuard.m_taken g
          then HeldRecursive (RecursiveSemaphoreGuard.m_handle g) :: st
          else st)
  /\ (RecursiveSemaphoreGuard.m_taken g = true ->
      RecursiveSemaphoreGuard.m_handle g <> nullptr).
Proof.
  destruct a; run_cases; (split; [reflexivity || congruence | ]);
    intros E; try discriminate E; now apply Z.eqb_neq.
Qed.

Lemma SemaphoreGuard_dtor_holds `{FreeRTOSPort} {K} (kern : Kernel K)
    debug g s st :
  (SemaphoreGuard.m_taken g = true -> SemaphoreGuard.m_handle g <> nullptr) ->
  holds_after (snd (run kern (SemaphoreGuard.dtor debug g) s))
    (if SemaphoreGuard.m_taken g
     then HeldPlain (SemaphoreGuard.m_handle g) :: st else st)
  = Some st.
Proof.
  intros N. destruct (SemaphoreGuard.m_taken g) eqn:E.
  - specialize (N eq_refl). apply Z.eqb_neq in N. unfold SemaphoreGuard.dtor.
    rewrite E, N. destruct debug; run_cases; rewrite ?Z.eqb_refl in *;
      reflexivity || discriminate.
  - now rewrite (SemaphoreGuard_dtor_not_taken debug g E).
Qed.

Lemma RecursiveSemaphoreGuard_dtor_holds `{FreeRTOSPort} {K} (kern : Kernel K)
    debug g s st :
  (RecursiveSemaphoreGuard.m_taken g = true ->
   RecursiveSemaphoreGuard.m_handle g <> nullptr) ->
  holds_after (snd (run kern (RecursiveSemaphoreGuard.dtor debug g) s))
    (if RecursiveSemaphoreGuard.m_taken g
     then HeldRecursive (RecursiveSemaphoreGuard.m_handle g) :: st else st)
  = Some st.
Proof.
  intros N. destruct (RecursiveSemaphoreGuard.m_taken g) eqn:E.
  - specialize (N eq_refl). apply Z.eqb_neq in N.
    unfold RecursiveSemaphoreGuard.dtor.
    rewrite E, N. destruct debug; run_cases; rewrite ?Z.eqb_refl in *;
      reflexivity || discriminate.
  - now rewrite (RecursiveSemaphoreGuard_dtor_not_taken debug g E).
Qed.

(** The trace of a block is the construction, the body, the destructor. *)
Lemma SemaphoreGuard_scope_run `{FreeRTOSPort} {K A} (kern : Kernel K)
    debug a (body : SemaphoreGuard.t -> Prog A) s :
  run kern (SemaphoreGuard_scope debug a body) s
  = let '(g, s1, tr1) := run kern (SemaphoreGuard.construct a) s in
    let '(x, s2, tr2) := run kern (body g) s1 in
    let '(_, s3, tr3) := run kern (SemaphoreGuard.dtor debug g) s2 in
    (x, s3, tr1 ++ tr2 ++ tr3).
Proof.
  unfold SemaphoreGuard_scope. cbn [bind ret Monad_Prog].
  rewrite run_bind.
  destruct (run kern (SemaphoreGuard.construct a) s) as [[g s1] tr1].
  rewrite run_bind.
  destruct (run kern (body g) s1) as [[x s2] tr2].
  rewrite run_bind.
  destruct (run kern (SemaphoreGuard.dtor debug g) s2) as [[u s3] tr3].
  cbn [run]. now rewrite !app_nil_r.
Qed.

Lemma RecursiveSemaphoreGuard_scope_run `{FreeRTOSPort} {K A} (kern : Kernel K)
    debug a (body : RecursiveSemaphoreGuard.t -> Prog A) s :
  run kern (RecursiveSemaphoreGuard_scope debug a body) s
  = let '(g, s1, tr1) := run kern (RecursiveSemaphoreGuard.construct a) s in
    let '(x, s2, tr2) := run kern (body g) s1 in
    let '(_, s3, tr3) := run kern (RecursiveSemaphoreGuard.dtor debug g) s2 in
    (x, s3, tr1 ++ tr2 ++ tr3).
Proof.
  unfold RecursiveSemaphoreGuard_scope. cbn [bind ret Monad_Prog].
  rewrite run_bind.
  destruct (run kern (RecursiveSemaphoreGuard.construct a) s) as [[g s1] tr1].
  rewrite run_bind.
  destruct (run kern (body g) s1) as [[x s2] tr2].
  rewrite run_bind.
  destruct (run kern (RecursiveSemaphoreGuard.dtor debug g) s2) as [[u s3] tr3].
  cbn [run]. now rewrite !app_nil_r.
Qed.

(** A block around a body that returns everything it takes does so too,
    whatever the stack it starts from. *)
Lemma SemaphoreGuard_scope_holds `{FreeRTOSPort} {K A} (kern : Kernel K)
    debug a (body : SemaphoreGuard.t -> Prog A) :
  (forall g s, balanced (snd (run kern (body g) s))) ->
  forall s st,
    holds_after (snd (run kern (SemaphoreGuard_scope debug a body) s)) st
    = Some st.
Proof.
  intros Hbody s st. rewrite SemaphoreGuard_scope_run.
  pose proof (SemaphoreGuard_construct_holds kern a s st) as C.
  destruct (run kern (SemaphoreGuard.construct a) s) as [[g s1] tr1].
  destruct C as [C N]. specialize (Hbody g s1).
  destruct (run kern (body g) s1) as [[x s2] tr2].
  pose proof (SemaphoreGuard_dtor_holds kern debug g s2 st N) as D.
  destruct (run kern (SemaphoreGuard.dtor debug g) s2) as [[u s3] tr3].
  cbn [snd] in *. rewrite holds_after_app, C, holds_after_app.
  rewrite (balanced_frame _ _ Hbody). exact D.
Qed.

Lemma RecursiveSemaphoreGuard_scope_holds `{FreeRTOSPort} {K A}
    (kern : Kernel K) debug a (body : RecursiveSemaphoreGuard.t -> Prog A) :
  (forall g s, balanced (snd (run kern (body g) s))) ->
  forall s st,
    holds_after (snd (run kern (RecursiveSemaphoreGuard_scope debug a body) s))
      st
    = Some st.
Proof.
  intros Hbody s st. rewrite RecursiveSemaphoreGuard_scope_run.
  pose proof (RecursiveSemaphoreGuard_construct_holds kern a s st) as C.
  destruct (run kern (RecursiveSemaphoreGuard.construct a) s) as [[g s1] tr1].
  destruct C as [C N]. specialize (Hbody g s1).
  destruct (run kern (body g) s1) as [[x s2] tr2].
  pose proof (RecursiveSemaphoreGuard_dtor_holds kern debug g s2 st N) as D.
  destruct (run kern (RecursiveSemaphoreGuard.dtor debug g) s2)
    as [[u s3] tr3].
  cbn [snd] in *. rewrite holds_after_app, C, holds_after_app.
  rewrite (balanced_frame _ _ Hbody). exact D.
Qed.

(** X1: a block guarded by a [SemaphoreGuard], built by any constructor
    and in either build variant, around a body that returns every lock it
    takes, returns every lock it takes: each give matches the most recent
    take still held (same handle, same primitive) and nothing is held
    when the block is left. *)
Theorem SemaphoreGuard_scope_balanced :
  forall (port : FreeRTOSPort) (K A : Type) (kern : Kernel K) (debug : bool)
         (a : CtorArgs) (body : SemaphoreGuard.t -> Prog A),
    (forall g s, balanced (snd (run kern (body g) s))) ->
    forall s, balanced (snd (run kern (SemaphoreGuard_scope debug a body) s)).
Proof.
  intros port K A kern debug a body Hbody s.
  exact (SemaphoreGuard_scope_holds kern debug a body Hbody s []).
Qed.

(** X2: the same for a block guarded by a [RecursiveSemaphoreGuard]. *)
Theorem RecursiveSemaphoreGuard_scope_balanced :
  forall (port : FreeRTOSPort) (K A : Type) (kern : Kernel K) (debug : bool)
         (a : CtorArgs) (body : RecursiveSemaphoreGuard.t -> Prog A),
    (forall g s, balanced (snd (run kern (body g) s))) ->
    forall s,
      balanced (snd (run kern (RecursiveSemaphoreGuard_scope debug a body) s)).
Proof.
  intros port K A kern debug a body Hbody s.
  exact (RecursiveSemaphoreGuard_scope_holds kern debug a body Hbody s []).
Qed.

(** ** Guards declared through the macros *)

(** X3: a guard declared with [SEMAPHORE_GUARD] or
    [SEMAPHORE_GUARD_TIMEOUT].  In the debug build, when it acquired, its
    construction read the tick count once and its destructor logs one
    line carrying the file and line of the declaration and, as hold time,
    the tick count at destruction minus that reading, in [TickType_t]
    arithmetic.  In the release build, or when it did not acquire, the
    destructor logs nothing. *)
Theorem SEMAPHORE_GUARD_release_line :
  forall (port : FreeRTOSPort) (K : Type) (kern : Kernel K) (debug : bool)
         (file : string) (line : Z) (h : SemaphoreHandle_t)
         (timeout : TickType_t) (s s' : K),
    (let '(g, _, tr) := run kern (SEMAPHORE_GUARD debug file line h) s in
     if debug && SemaphoreGuard.m_taken g
     then exists acq,
         tick_reads tr = [acq]
         /\ map log_args
              (lines (snd (run kern (SemaphoreGuard.dtor debug g) s')))
            = [[ArgStr (Some file); ArgInt (Some line);
                ArgULong (Some (to_ulong
                   (tick_sub (fst (answer kern xTaskGetTickCount s')) acq)))]]
     else lines (snd (run kern (SemaphoreGuard.dtor debug g) s')) = [])
    /\
    (let '(g, _, tr) :=
       run kern (SEMAPHORE_GUARD_TIMEOUT debug file line h timeout) s in
     if debug && SemaphoreGuard.m_taken g
     then exists acq,
         tick_reads tr = [acq]
         /\ map log_args
              (lines (snd (run kern (SemaphoreGuard.dtor debug g) s')))
            = [[ArgStr (Some file); ArgInt (Some line);
                ArgULong (Some (to_ulong
                   (tick_sub (fst (answer kern xTaskGetTickCount s')) acq)))]]
     else lines (snd (run kern (SemaphoreGuard.dtor debug g) s')) = []).
Proof.
  intros port K kern debug file line h timeout s s'.
  split; destruct debug;
    unfold SEMAPHORE_GUARD, SEMAPHORE_GUARD_TIMEOUT; run_cases;
    try reflexivity; try congruence; eexists; split; reflexivity.
Qed.

(** X4: the same for [RECURSIVE_SEMAPHORE_GUARD] and
    [RECURSIVE_SEMAPHORE_GUARD_TIMEOUT]. *)
Theorem RECURSIVE_SEMAPHORE_GUARD_release_line :
  forall (port : FreeRTOSPort) (K : Type) (kern : Kernel K) (debug : bool)
         (file : string) (line : Z) (h : SemaphoreHandle_t)
         (timeout : TickType_t) (s s' : K),
    (let '(g, _, tr) :=
       run kern (RECURSIVE_SEMAPHORE_GUARD debug file line h) s in
     if debug && RecursiveSemaphoreGuard.m_taken g
     then exists acq,
         tick_reads tr = [acq]
         /\ map log_args
              (lines (snd (run kern (RecursiveSemaphoreGuard.dtor debug g) s')))
            = [[ArgStr (Some file); ArgInt (Some line);
                ArgULong (Some (to_ulong
                   (tick_sub (fst (answer kern xTaskGetTickCount s')) acq)))]]
     else lines (snd (run kern (RecursiveSemaphoreGuard.dtor debug g) s')) = [])
    /\
    (let '(g, _, tr) :=
       run kern (RECURSIVE_SEMAPHORE_GUARD_TIMEOUT debug file line h timeout) s
     in
     if debug && RecursiveSemaphoreGuard.m_taken g
     then exists acq,
         tick_reads tr = [acq]
         /\ map log_args
              (lines (snd (run kern (RecursiveSemaphoreGuard.dtor debug g) s')))
            = [[ArgStr (Some file); ArgInt (Some line);
                ArgULong (Some (to_ulong
                   (tick_sub (fst (answer kern xTaskGetTickCount s')) acq)))]]
     else lines (snd (run kern (RecursiveSemaphoreGuard.dtor debug g) s')) = []).
Proof.
  intros port K kern debug file line h timeout s s'.
  split; destruct debug;
    unfold RECURSIVE_SEMAPHORE_GUARD, RECURSIVE_SEMAPHORE_GUARD_TIMEOUT;
    run_cases; try reflexivity; try congruence; eexists; split; reflexivity.
Qed.

(** ** The release build *)

(** X5: in the release build (the constructors without file and line,
    the destructor without instrumentation) the whole life of a guard of
    either class never reads the tick count and writes at most one log
    line, which is of error severity. *)
Theorem release_build_is_silent :
  forall (port : FreeRTOSPort) (K : Type) (kern : Kernel K)
         (a : CtorArgs) (s : K),
    debug_only a = false ->
    (let '(g, s1, tr) := run kern (SemaphoreGuard.construct a) s in
     let life := tr ++ snd (run kern (SemaphoreGuard.dtor false g) s1) in
     tick_reads life = []
     /\ (List.length (lines life) <= 1)%nat
     /\ count_level ESP_LOG_ERROR life = List.length (lines life))
    /\
    (let '(g, s1, tr) := run kern (RecursiveSemaphoreGuard.construct a) s in
     let life := tr ++ snd (run kern (RecursiveSemaphoreGuard.dtor false g) s1) in
     tick_reads life = []
     /\ (List.length (lines life) <= 1)%nat
     /\ count_level ESP_LOG_ERROR life = List.length (lines life)).
Proof.
  intros port K kern a s D.
  destruct a; cbn [debug_only] in D; try discriminate D;
    split; run_cases; repeat split; cbn; lia || reflexivity.
Qed.

(** ** Diagnostics by outcome *)

(** X6: what a construction of either class logs.  One error line when
    the handle is null or the kernel reports interrupt context, none
    otherwise.  One warn line when the overload with timeout, file and
    line reached its take and the take failed; no other overload logs a
    failed take at all. *)
Theorem construction_diagnostics :
  forall (port : FreeRTOSPort) (K : Type) (kern : Kernel K)
         (a : CtorArgs) (s : K),
    (let '(g, _, tr) := run kern (SemaphoreGuard.construct a) s in
     count_level ESP_LOG_ERROR tr
     = (if (args_handle a =? nullptr) || in_isr kern s then 1%nat else 0%nat)
     /\ count_level ESP_LOG_WARN tr
        = (if warns_on_timeout a && negb (args_handle a =? nullptr)
              && negb (in_isr kern s) && negb (SemaphoreGuard.m_taken g)
           then 1%nat else 0%nat))
    /\
    (let '(g, _, tr) := run kern (RecursiveSemaphoreGuard.construct a) s in
     count_level ESP_LOG_ERROR tr
     = (if (args_handle a =? nullptr) || in_isr kern s then 1%nat else 0%nat)
     /\ count_level ESP_LOG_WARN tr
        = (if warns_on_timeout a && negb (args_handle a =? nullptr)
              && negb (in_isr kern s) && negb (RecursiveSemaphoreGuard.m_taken g)
           then 1%nat else 0%nat)).
Proof.
  intros port K kern a s.
  split; destruct a; run_cases; split; reflexivity.
Qed.


(** ** Debug instrumentation leaves the locking alone *)

(** Instrumented bodies make the same locking calls and end alike on a
    kernel for which reading the tick count and writing a log line are
    side-effect free. *)
Lemma Instrumented_run {K A B} (R : A -> B -> Prop) (kern : Kernel K) :
  (forall s, snd (answer kern xTaskGetTickCount s) = s) ->
  (forall l s, sink kern l s = s) ->
  forall p q, Instrumented R p q -> forall s,
    let '(a, s1, tr) := run kern p s in
    let '(b, s2, tr') := run kern q s in
    R a b /\ s1 = s2 /\ locking_calls tr = locking_calls tr'.
Proof.
  intros Htick Hsink p q I.
  induction I as [a b HR | c k k' Hc _ IH | l l' k k' _ _ _ IH
                 | k q _ IH | l k q _ _ IH]; intros s; cbn [run].
  - auto.
  - destruct (answer kern c s) as [r s0]. specialize (IH r s0).
    destruct (run kern (k r) s0) as [[a s1] tr].
    destruct (run kern (k' r) s0) as [[b s2] tr'].
    destruct IH as (HR & Hs & Htr). repeat split; trivial.
    unfold locking_calls in *. cbn. rewrite Hc. cbn. now f_equal.
  - rewrite !Hsink. specialize (IH s).
    destruct (run kern k s) as [[a s1] tr].
    destruct (run kern k' s) as [[b s2] tr']. exact IH.
  - specialize (Htick s). destruct (answer kern xTaskGetTickCount s) as [r s0].
    cbn [snd] in Htick. subst s0. specialize (IH r s).
    destruct (run kern (k r) s) as [[a s1] tr].
    destruct (run kern q s) as [[b s2] tr']. exact IH.
  - rewrite Hsink. specialize (IH s).
    destruct (run kern k s) as [[a s1] tr].
    destruct (run kern q s) as [[b s2] tr']. exact IH.
Qed.

(** X7: for both classes, the constructors that take file and line are
    the plain constructors with instrumentation added, and the debug
    build's destructor is the release build's with instrumentation added:
    the same null test, context query, take and give with the same
    arguments in the same order, and the same handle and acquired flag
    for every answer of the kernel; the only additions are reads of the
    tick count and debug or warn lines. *)
Theorem debug_build_is_instrumentation :
  forall (port : FreeRTOSPort) (h : SemaphoreHandle_t) (timeout : TickType_t)
         (file : string) (line : Z),
    (Instrumented same_lock (SemaphoreGuard.ctor_debug h file line)
       (SemaphoreGuard.ctor h)
     /\ Instrumented same_lock
          (SemaphoreGuard.ctor_timeout_debug h timeout file line)
          (SemaphoreGuard.ctor_timeout h timeout)
     /\ forall g, Instrumented eq (SemaphoreGuard.dtor true g)
                    (SemaphoreGuard.dtor false g))
    /\
    (Instrumented same_lock_recursive
       (RecursiveSemaphoreGuard.ctor_debug h file line)
       (RecursiveSemaphoreGuard.ctor h)
     /\ Instrumented same_lock_recursive
          (RecursiveSemaphoreGuard.ctor_timeout_debug h timeout file line)
          (RecursiveSemaphoreGuard.ctor_timeout h timeout)
     /\ forall g, Instrumented eq (RecursiveSemaphoreGuard.dtor true g)
                    (RecursiveSemaphoreGuard.dtor false g)).
Proof.
  intros port h timeout file line.
  repeat split; try intros g; autounfold with guard; guard_simpl;
    repeat instrumented_step; reflexivity || (split; reflexivity).
Qed.

(** ** Hold time across a wrap of the tick counter *)




(** * SafeCounter (examples/basic_usage.cpp) *)

(** Each member function returns every lock it takes. *)
Lemma SafeCounter_log_holds `{FreeRTOSPort} {K} (kern : Kernel K) debug
    xSerialMutex message this Serial s st :
  holds_after
    (snd (run kern (SafeCounter.log debug xSerialMutex message this Serial) s))
    st = Some st.
Proof.
  unfold SafeCounter.log. apply RecursiveSemaphoreGuard_scope_holds.
  intros g s1. cbn [bind ret Monad_Prog RecursiveSemaphoreGuard.hasLock
                      Prog_bind fst].
  destruct (RecursiveSemaphoreGuard.m_taken g); [ | reflexivity].
  apply SemaphoreGuard_scope_holds.
  intros g' s2. cbn [bind ret Monad_Prog SemaphoreGuard.hasLock Prog_bind fst].
  destruct (SemaphoreGuard.m_taken g'); reflexivity.
Qed.

Lemma SafeCounter_reset_holds `{FreeRTOSPort} {K} (kern : Kernel K) debug
    xSerialMutex this Serial s st :
  holds_after
    (snd (run kern (SafeCounter.reset debug xSerialMutex this Serial) s))
    st = Some st.
Proof.
  unfold SafeCounter.reset. apply RecursiveSemaphoreGuard_scope_holds.
  intros g s1. cbn [bind ret Monad_Prog RecursiveSemaphoreGuard.hasLock
                      Prog_bind fst].
  destruct (RecursiveSemaphoreGuard.m_taken g); [ | reflexivity].
  apply SafeCounter_log_holds.
Qed.

Lemma SafeCounter_increment_holds `{FreeRTOSPort} {K} (kern : Kernel K) debug
    xSerialMutex this Serial s st :
  holds_after
    (snd (run kern (SafeCounter.increment debug xSerialMutex this Serial) s))
    st = Some st.
Proof.
  unfold SafeCounter.increment. apply RecursiveSemaphoreGuard_scope_holds.
  intros g s1. cbn [bind ret Monad_Prog RecursiveSemaphoreGuard.hasLock
                      Prog_bind fst].
  destruct (RecursiveSemaphoreGuard.m_taken g); [ | reflexivity].
  cbv zeta. destruct (10 <=? _); [ | reflexivity].
  apply SafeCounter_reset_holds.
Qed.

(** X9: every member function of [SafeCounter] returns every lock it
    takes, in both builds and on every kernel: in the trace of
    [increment] (which may call [reset], which calls [log], which takes
    the serial mutex), of [reset], [log] and [getValue], each give
    matches the most recent take still held and nothing is held at
    return, whichever of the nested acquisitions the kernel refuses. *)
Theorem SafeCounter_balanced :
  forall (port : FreeRTOSPort) (K : Type) (kern : Kernel K) (debug : bool)
         (xSerialMutex : SemaphoreHandle_t) (message : string)
         (this : SafeCounter.t) (Serial : list SerialLine) (s : K),
    balanced (snd (run kern
       (SafeCounter.increment debug xSerialMutex this Serial) s))
    /\ balanced (snd (run kern
          (SafeCounter.reset debug xSerialMutex this Serial) s))
    /\ balanced (snd (run kern
          (SafeCounter.log debug xSerialMutex message this Serial) s))
    /\ balanced (snd (run kern (SafeCounter.getValue debug this) s)).
Proof.
  intros port K kern debug xSerialMutex message this Serial s.
  split; [apply SafeCounter_increment_holds | ].
  split; [apply SafeCounter_reset_holds | ].
  split; [apply SafeCounter_log_holds | ].
  unfold SafeCounter.getValue. unfold balanced. apply RecursiveSemaphoreGuard_scope_holds.
  intros g s1. cbn [bind ret Monad_Prog RecursiveSemaphoreGuard.hasLock
                      Prog_bind fst].
  destruct (RecursiveSemaphoreGuard.m_taken g); reflexivity.
Qed.

(** X10: [getValue()] leaves the counter as it is and returns the value
    when its guard acquired the counter's mutex, and -1 when it did not
    (null mutex, interrupt context, or the take refused). *)
Theorem SafeCounter_getValue_result :
  forall (port : FreeRTOSPort) (K : Type) (kern : Kernel K) (debug : bool)
         (this : SafeCounter.t) (s : K),
    let '(r, this', _, tr) := run kern (SafeCounter.getValue debug this) s in
    this' = this
    /\ r = if take_recursive_succeeded (SafeCounter.mutex this) tr
           then SafeCounter.value this else -1.
Proof.
  intros port K kern debug this s. destruct debug; counter_cases;
    split; reflexivity || congruence.
Qed.





(** X13: a counter whose mutex is null (its creation failed): the guard
    of [increment()] refuses, so the call changes neither the counter nor
    the serial output and makes no kernel call, only one error line; and
    [getValue()] returns -1 in the same way. *)
Theorem SafeCounter_null_mutex :
  forall (port : FreeRTOSPort) (K : Type) (kern : Kernel K) (debug : bool)
         (xSerialMutex : SemaphoreHandle_t) (this : SafeCounter.t)
         (Serial : list SerialLine) (s : K),
    SafeCounter.mutex this = nullptr ->
    (exists l,
        run kern (SafeCounter.increment debug xSerialMutex this Serial) s
        = (this, Serial, sink kern l s, [EvLog l])
        /\ log_level l = ESP_LOG_ERROR)
    /\ (exists l,
           run kern (SafeCounter.getValue debug this) s
           = (-1, this, sink kern l s, [EvLog l])
           /\ log_level l = ESP_LOG_ERROR).
Proof.
  intros port K kern debug xSerialMutex this Serial s N.
  split; scope_unfold; autounfold with guard; guard_simpl; rewrite N;
    guard_simpl; eexists; split; reflexivity.
Qed.

(** X14: [log(message)] prints exactly one line, the message with the
    current value, when both its guard on the counter's mutex and its
    guard on the serial mutex acquired, and nothing otherwise; it asks
    for the serial mutex only once it holds the counter's mutex; the
    counter is unchanged. *)
Theorem SafeCounter_log_output :
  forall (port : FreeRTOSPort) (K : Type) (kern : Kernel K) (debug : bool)
         (xSerialMutex : SemaphoreHandle_t) (message : string)
         (this : SafeCounter.t) (Serial : list SerialLine) (s : K),
    let '(this', Serial', _, tr) :=
      run kern (SafeCounter.log debug xSerialMutex message this Serial) s in
    this' = this
    /\ Serial'
       = Serial ++
         (if take_recursive_succeeded (SafeCounter.mutex this) tr
             && take_succeeded xSerialMutex tr
          then [{| serial_format :=
                     ("[SafeCounter] %s (value=%d)" ++ newline)%string;
                   serial_args := [ArgStr (Some message);
                                   ArgInt (Some (SafeCounter.value this))] |}]
          else [])
    /\ (if take_recursive_succeeded (SafeCounter.mutex this) tr
        then True
        else filter (fun c => match c with xSemaphoreTake _ _ => true
                                         | _ => false end) (calls tr) = []).
Proof.
  intros port K kern debug xSerialMutex message this Serial s.
  destruct debug; counter_cases; rewrite ?app_nil_r;
    repeat split; reflexivity || congruence.
Qed.

(** ** A guard and its own semaphore *)

(** X15: from construction to destruction, in either build, every take
    and give a guard of either class issues is on the handle its
    constructor was given; it touches no other semaphore. *)
Theorem guard_touches_only_its_handle :
  forall (port : FreeRTOSPort) (K : Type) (kern : Kernel K) (debug : bool)
         (a : CtorArgs) (s : K),
    (let '(g, s1, tr) := run kern (SemaphoreGuard.construct a) s in
     forallb (fun c => match call_handle c with
                       | Some h => h =? args_handle a
                       | None => true
                       end)
       (calls (tr ++ snd (run kern (SemaphoreGuard.dtor debug g) s1))) = true)
    /\
    (let '(g, s1, tr) := run kern (RecursiveSemaphoreGuard.construct a) s in
     forallb (fun c => match call_handle c with
                       | Some h => h =? args_handle a
                       | None => true
                       end)
       (calls (tr ++ snd (run kern (RecursiveSemaphoreGuard.dtor debug g) s1)))
     = true).
Proof.
  intros port K kern debug a s.
  split; destruct a; destruct debug; run_cases; rewrite ?Z.eqb_refl;
    reflexivity.
Qed.

(** ** The further theorems at concrete inputs *)

(** A block [{ SemaphoreGuard guard(h); guard.hasLock(); }] on the ESP32
    port, the take granted. *)
Lemma SemaphoreGuard_scope_balanced_witness :
  (forall g s,
      @balanced esp32_port (snd (run scripted (SemaphoreGuard.hasLock g) s)))
  /\ @balanced esp32_port
       (snd (run scripted
               (SemaphoreGuard_scope (H := esp32_port) false (Plain 1000)
                  SemaphoreGuard.hasLock) [0; 1; 1])).
Proof.
  assert (Hbody : forall g s,
             @balanced esp32_port
               (snd (run scripted (SemaphoreGuard.hasLock g) s)))
    by (intros g s; reflexivity).
  split; [exact Hbody | ].
  exact (SemaphoreGuard_scope_balanced esp32_port (list Z) _ scripted false
           (Plain 1000) SemaphoreGuard.hasLock Hbody [0; 1; 1]).
Defined.

Lemma RecursiveSemaphoreGuard_scope_balanced_witness :
  (forall g s,
      @balanced esp32_port
        (snd (run scripted (RecursiveSemaphoreGuard.hasLock g) s)))
  /\ @balanced esp32_port
       (snd (run scripted
               (RecursiveSemaphoreGuard_scope (H := esp32_port) true
                  (Timed 1000 10) RecursiveSemaphoreGuard.hasLock)
               [0; 1; 500; 1])).
Proof.
  assert (Hbody : forall g s,
             @balanced esp32_port
               (snd (run scripted (RecursiveSemaphoreGuard.hasLock g) s)))
    by (intros g s; reflexivity).
  split; [exact Hbody | ].
  exact (RecursiveSemaphoreGuard_scope_balanced esp32_port (list Z) _ scripted
           true (Timed 1000 10) RecursiveSemaphoreGuard.hasLock Hbody
           [0; 1; 500; 1]).
Defined.

(** [SemaphoreGuard guard(h, 10)] in the release build, the take refused. *)
Lemma release_build_is_silent_witness :
  debug_only (Timed 1000 10) = false
  /\ (let '(g, s1, tr) :=
        run scripted
          (SemaphoreGuard.construct (port := esp32_port) (Timed 1000 10))
          [0; 0] in
      let life :=
        tr ++ snd (run scripted
                     (SemaphoreGuard.dtor (port := esp32_port) false g) s1) in
      tick_reads life = []
      /\ (List.length (lines life) <= 1)%nat
      /\ count_level ESP_LOG_ERROR life = List.length (lines life))
  /\ (let '(g, s1, tr) :=
        run scripted
          (RecursiveSemaphoreGuard.construct (port := esp32_port)
             (Timed 1000 10)) [0; 0] in
      let life :=
        tr ++ snd (run scripted
                     (RecursiveSemaphoreGuard.dtor (port := esp32_port) false g)
                     s1) in
      tick_reads life = []
      /\ (List.length (lines life) <= 1)%nat
      /\ count_level ESP_LOG_ERROR life = List.length (lines life)).
Proof.
  split; [reflexivity | ].
  exact (release_build_is_silent esp32_port (list Z) scripted (Timed 1000 10)
           [0; 0] eq_refl).
Defined.


Lemma SafeCounter_null_mutex_witness :
  SafeCounter.mutex counter_without_mutex = nullptr
  /\ (exists l,
         run scripted
           (SafeCounter.increment (port := esp32_port) false 2000
              counter_without_mutex []) [1]
         = (counter_without_mutex, [], sink scripted l [1], [EvLog l])
         /\ log_level l = ESP_LOG_ERROR)
  /\ (exists l,
         run scripted
           (SafeCounter.getValue (port := esp32_port) false
              counter_without_mutex) [1]
         = (-1, counter_without_mutex, sink scripted l [1], [EvLog l])
         /\ log_level l = ESP_LOG_ERROR).
Proof.
  split; [reflexivity | ].
  exact (SafeCounter_null_mutex esp32_port (list Z) scripted false 2000
           counter_without_mutex [] [1] eq_refl).
Defined.
